(** * AI Personal Finance Manager: the financial computation core

    A shallow embedding of
      - [utils/calculations.py]  (class [FinancialCalculator]),
      - [backend/crud.py]        ([create_loan]),
      - [backend/schemas.py]     ([LoanCreate]),
      - [backend/main.py]        ([compute_snapshot_data]),
      - [ml_models/autoencoder_anomaly.py] ([_rule_based_detection]).

    Numbers.  The Python code computes on binary floating point.  The
    embedding idealises a Python [float] as an exact rational ([Q]); the
    anomaly detector, which takes a square root, is embedded over the
    real numbers ([R]).  Rounding error of the floating-point operations
    themselves, overflow and NaN are therefore outside the model; the
    decimal rounding [round(x, 2)] that the code performs explicitly is
    inside the model.  Python exceptions are values of [PyResult].

    Where the idealisation stops.  For an annual rate [r] so small that
    binary floating point no longer tells [1 + r/1200] from [1], the
    code's [(1 + m) ** n - 1] loses its leading digits or is [0.0], and
    the EMI and SIP formulas divide by zero or return a value far from
    the exact one; very large amounts and tenures lose the cents or
    overflow.  The exact arithmetic of the embedding shows none of this.
    The properties of these formulas are therefore stated for ordinary
    inputs only ([ordinary_rate], amounts up to 10^9, at most 1200
    months), and up to one cent where they give a value. *)

From Stdlib Require Import ZArith QArith Qround Qabs Qminmax Qpower.
From Stdlib Require Import Reals String.
From Stdlib Require Import List Sorted Bool Lia Lqa Lra Psatz.
Import ListNotations.

Local Open Scope Q_scope.

(** ** Python exceptions as results *)

Inductive PyExc : Type :=
| ZeroDivisionError
| IndexError
| ValidationError.

Inductive PyResult (A : Type) : Type :=
| Ok (a : A)
| Raise (e : PyExc).

Arguments Ok {A} a.
Arguments Raise {A} e.

Definition bind {A B : Type} (c : PyResult A) (k : A -> PyResult B) : PyResult B :=
  match c with
  | Ok a => k a
  | Raise e => Raise e
  end.

Notation "x <- c ;; k" := (bind c (fun x => k))
  (at level 61, c at next level, right associativity).

(** ** Python arithmetic on floats, idealised *)

(** [a > b] *)
Definition Qgtb (a b : Q) : bool := negb (Qle_bool a b).

(** [a < b] *)
Definition Qltb (a b : Q) : bool := negb (Qle_bool b a).

(** [a / b]: true division raises [ZeroDivisionError] on a zero divisor. *)
Definition py_div (a b : Q) : PyResult Q :=
  if Qeq_bool b 0 then Raise ZeroDivisionError else Ok (a / b).

(** [b ** e] with an [int] exponent: [0.0 ** e] raises for a negative [e]. *)
Definition py_pow (b : Q) (e : Z) : PyResult Q :=
  if Qeq_bool b 0 && (e <? 0)%Z then Raise ZeroDivisionError else Ok (b ^ e).

(** Nearest integer, ties to the even one (the rule of Python's [round]). *)
Definition round_half_even (x : Q) : Z :=
  let f := Qfloor x in
  match Qcompare (x - inject_Z f) (1 # 2) with
  | Lt => f
  | Gt => (f + 1)%Z
  | Eq => if Z.even f then f else (f + 1)%Z
  end.

(** [round(x, 2)] *)
Definition round2 (x : Q) : Q := Qmake (round_half_even (x * 100)) 100.

(** [max(a, b)] and [abs(a)] are [Qmax] and [Qabs]. *)

(** ** utils/calculations.py *)

Module FinancialCalculator.

Record SipValue : Type := mkSipValue {
  total_invested : Q;
  current_value : Q
}.

(** [calculate_sip_value(monthly_amount, annual_return, months)] *)
Definition calculate_sip_value (monthly_amount annual_return : Q) (months : Z)
  : PyResult SipValue :=
  let monthly_rate := annual_return / (12 * 100) in
  fv <- (if Qgtb monthly_rate 0 then
           pw <- py_pow (1 + monthly_rate) months ;;
           q <- py_div (pw - 1) monthly_rate ;;
           Ok (monthly_amount * q * (1 + monthly_rate))
         else
           Ok (monthly_amount * inject_Z months)) ;;
  let total_invested := monthly_amount * inject_Z months in
  Ok (mkSipValue (round2 total_invested) (round2 fv)).

(** [calculate_emi(principal, annual_rate, tenure_months)] *)
Definition calculate_emi (principal annual_rate : Q) (tenure_months : Z)
  : PyResult Q :=
  let monthly_rate := annual_rate / (12 * 100) in
  emi <- (if Qgtb monthly_rate 0 then
            pw <- py_pow (1 + monthly_rate) tenure_months ;;
            pw' <- py_pow (1 + monthly_rate) tenure_months ;;
            py_div (principal * monthly_rate * pw) (pw' - 1)
          else
            py_div principal (inject_Z tenure_months)) ;;
  Ok (round2 emi).

(** One row of the amortisation table. *)
Record ScheduleRow : Type := mkRow {
  row_month : Z;
  row_emi : Q;
  row_interest : Q;
  row_principal : Q;
  row_balance : Q
}.

(** The body of [for month in range(1, tenure_months + 1)]: [steps]
    iterations are left, [month] is the loop variable and [balance] the
    running balance before this iteration. *)
Fixpoint schedule_loop (monthly_rate emi : Q) (steps : nat) (month : Z)
  (balance : Q) : list ScheduleRow :=
  match steps with
  | O => []
  | S steps' =>
      let interest := balance * monthly_rate in
      let principal_paid := emi - interest in
      let balance' := balance - principal_paid in
      mkRow month emi (round2 interest) (round2 principal_paid)
            (round2 (Qmax balance' 0))
        :: schedule_loop monthly_rate emi steps' (month + 1)%Z balance'
  end.

(** [calculate_loan_schedule(principal, annual_rate, tenure_months, emi)];
    the rows of the returned DataFrame, in order. *)
Definition calculate_loan_schedule (principal annual_rate : Q)
  (tenure_months : Z) (emi : Q) : list ScheduleRow :=
  let monthly_rate := annual_rate / (12 * 100) in
  schedule_loop monthly_rate emi (Z.to_nat tenure_months) 1%Z principal.


(** [calculate_xirr(cashflows, dates)].  A date is its day ordinal, so
    [(d - first_date).days] is a difference in [Z].  The power with a
    float exponent, [x ** y], is not a rational function: it is a
    parameter of the model, and may raise. *)
Section Xirr.

Variable float_pow : Q -> Q -> PyResult Q.

(** [sum(term(cf, y) for cf, y in zip(cashflows, years))], with the
    running total [acc]. *)
Fixpoint sum_terms (term : Q -> Q -> PyResult Q) (pairs : list (Q * Q))
  (acc : Q) : PyResult Q :=
  match pairs with
  | [] => Ok acc
  | (cf, y) :: rest =>
      t <- term cf y ;;
      sum_terms term rest (acc + t)
  end.

Definition npv_term (rate cf y : Q) : PyResult Q :=
  pw <- float_pow (1 + rate) y ;;
  py_div cf pw.

Definition dnpv_term (rate cf y : Q) : PyResult Q :=
  pw <- float_pow (1 + rate) (y + 1) ;;
  py_div (- cf * y) pw.

(** [for _ in range(100)]: [iters] iterations are left. *)
Fixpoint newton_loop (pairs : list (Q * Q)) (iters : nat) (rate : Q)
  : PyResult Q :=
  match iters with
  | O => Ok rate
  | S iters' =>
      npv <- sum_terms (npv_term rate) pairs 0 ;;
      dnpv <- sum_terms (dnpv_term rate) pairs 0 ;;
      if Qltb (Qabs dnpv) (1 # 1000000) then Ok rate
      else
        step <- py_div npv dnpv ;;
        newton_loop pairs iters' (rate - step)
  end.

(** [dates[0]] *)
Definition first_item (dates : list Z) : PyResult Z :=
  match dates with
  | [] => Raise IndexError
  | d :: _ => Ok d
  end.

Definition calculate_xirr (cashflows : list Q) (dates : list Z) : PyResult Q :=
  if negb (length cashflows =? length dates)%nat then Ok 0
  else
    first_date <- first_item dates ;;
    let years := map (fun d => inject_Z (d - first_date) / (1461 # 4)) dates in
    rate <- newton_loop (combine cashflows years) 100 (1 # 10) ;;
    Ok (round2 (rate * 100)).

End Xirr.

End FinancialCalculator.

(** ** backend/schemas.py and backend/crud.py: loans *)

Module Crud.

(** [schemas.LoanCreate]; the fields the EMI depends on, and the owner. *)
Record LoanCreate : Type := mkLoanCreate {
  lc_user_id : Z;
  principal_amount : Q;
  interest_rate : Q;
  tenure_months : Z
}.

(** Construction of a [LoanCreate]: the three [Field(gt=0)] constraints
    are checked, and a violation is a validation error. *)
Definition LoanCreate_validate (user_id : Z) (principal rate : Q) (tenure : Z)
  : PyResult LoanCreate :=
  if Qgtb principal 0 && Qgtb rate 0 && (0 <? tenure)%Z
  then Ok (mkLoanCreate user_id principal rate tenure)
  else Raise ValidationError.

(** [models.Loan] *)
Record Loan : Type := mkLoan {
  loan_user_id : Z;
  loan_principal_amount : Q;
  loan_interest_rate : Q;
  loan_tenure_months : Z;
  emi : Q;
  outstanding_amount : Q
}.

(** [create_loan(db, loan)]: the new row and the table with it added. *)
Definition create_loan (db : list Loan) (loan : LoanCreate)
  : PyResult (list Loan * Loan) :=
  let P := principal_amount loan in
  let r := interest_rate loan / (12 * 100) in
  let n := tenure_months loan in
  pw <- py_pow (1 + r) n ;;
  pw' <- py_pow (1 + r) n ;;
  emi <- py_div (P * r * pw) (pw' - 1) ;;
  let db_loan :=
    mkLoan (lc_user_id loan) P (interest_rate loan) n (round2 emi) P in
  Ok (db ++ [db_loan], db_loan).

(** [get_loans_by_user(db, user_id)] *)
Definition get_loans_by_user (db : list Loan) (user_id : Z) : list Loan :=
  filter (fun l => (loan_user_id l =? user_id)%Z) db.

End Crud.

(** ** backend/main.py: the net-worth snapshot *)

Module Snapshot.

(** A table row as the snapshot reads it: its owner, the month it is
    filed under (income and expense rows only) and one nullable amount. *)
Record Holding : Type := mkHolding {
  user_id : Z;
  month : Z;
  amount : option Q
}.

(** The tables [compute_snapshot_data] queries. *)
Record Db : Type := mkDb {
  stocks : list Holding;          (* amount = current_value *)
  sips : list Holding;            (* amount = current_value *)
  mutual_funds : list Holding;    (* amount = current_value *)
  lump_sums : list Holding;       (* amount = maturity_value *)
  loans : list Holding;           (* amount = outstanding_amount *)
  credit_cards : list Holding;    (* amount = outstanding_amount *)
  incomes : list Holding;         (* amount = total_income, never NULL *)
  expenses : list Holding         (* amount = amount, never NULL *)
}.

(** [query.filter(user_id == uid).all()] *)
Definition by_user (table : list Holding) (uid : Z) : list Holding :=
  filter (fun h => (user_id h =? uid)%Z) table.

(** [query.filter(and_(user_id == uid, month == m)).all()] *)
Definition by_month (table : list Holding) (uid m : Z) : list Holding :=
  filter (fun h => (user_id h =? uid)%Z && (month h =? m)%Z) table.

(** [x or 0]: [None] and [0.0] are falsy. *)
Definition or_zero (v : option Q) : Q :=
  match v with
  | Some x => if Qeq_bool x 0 then 0 else x
  | None => 0
  end.

(** A column that is never NULL. *)
Definition the (v : option Q) : Q :=
  match v with
  | Some x => x
  | None => 0
  end.

(** [sum(f(h) for h in rows)] *)
Definition py_sum (f : Holding -> Q) (rows : list Holding) : Q :=
  fold_left (fun acc h => acc + f h) rows 0.

(** The dictionary returned by [compute_snapshot_data]. *)
Record SnapshotData : Type := mkSnapshotData {
  total_stocks_value : Q;
  total_sip_value : Q;
  total_mutual_fund_value : Q;
  total_lump_sum_value : Q;
  savings : Q;
  total_assets : Q;
  total_loan_outstanding : Q;
  total_credit_card_outstanding : Q;
  total_liabilities : Q;
  net_worth : Q;
  predicted_next_month : option Q
}.

(** [monthly_income] and [monthly_expense] as computed in
    [compute_snapshot_data]. *)
Definition monthly_income (db : Db) (uid m : Z) : Q :=
  match by_month (incomes db) uid m with
  | income :: _ => the (amount income)
  | [] => 0
  end.

Definition monthly_expense (db : Db) (uid m : Z) : Q :=
  match by_month (expenses db) uid m with
  | [] => 0
  | es => py_sum (fun e => the (amount e)) es
  end.

Definition compute_snapshot_data (db : Db) (uid m : Z) : SnapshotData :=
  let total_stocks_value := py_sum (fun s => or_zero (amount s)) (by_user (stocks db) uid) in
  let total_sip_value := py_sum (fun s => or_zero (amount s)) (by_user (sips db) uid) in
  let total_mutual_fund_value :=
    py_sum (fun s => or_zero (amount s)) (by_user (mutual_funds db) uid) in
  let total_lump_sum_value :=
    py_sum (fun s => or_zero (amount s)) (by_user (lump_sums db) uid) in
  let savings := monthly_income db uid m - monthly_expense db uid m in
  let total_assets :=
    total_stocks_value + total_sip_value + total_mutual_fund_value
    + total_lump_sum_value + Qmax savings 0 in
  let total_loan_outstanding :=
    py_sum (fun s => or_zero (amount s)) (by_user (loans db) uid) in
  let total_credit_card_outstanding :=
    py_sum (fun s => or_zero (amount s)) (by_user (credit_cards db) uid) in
  let total_liabilities := total_loan_outstanding + total_credit_card_outstanding in
  let net_worth := total_assets - total_liabilities in
  mkSnapshotData
    (round2 total_stocks_value)
    (round2 total_sip_value)
    (round2 total_mutual_fund_value)
    (round2 total_lump_sum_value)
    (round2 (Qmax savings 0))
    (round2 total_assets)
    (round2 total_loan_outstanding)
    (round2 total_credit_card_outstanding)
    (round2 total_liabilities)
    (round2 net_worth)
    None.

End Snapshot.

(** ** ml_models/autoencoder_anomaly.py: the rule-based fallback *)

Module ExpenseAnomalyDetector.

Local Open Scope R_scope.

(** A row of [expenses_df]: columns [month], [category], [amount].  A
    month is the ordinal of its date. *)
Record Expense : Type := mkExpense {
  month : Z;
  category : string;
  amount : R
}.

Definition DataFrame : Type := list Expense.

(** [df.groupby(key)['amount'].sum()]: one entry per distinct key, keys
    in increasing order, each with the sum of its rows' amounts. *)
Section GroupBy.

Context {K : Type} (eqb ltb : K -> K -> bool).

Fixpoint add_to_group (k : K) (v : R) (groups : list (K * R)) : list (K * R) :=
  match groups with
  | [] => [(k, v)]
  | (k', s) :: rest =>
      if eqb k k' then (k', s + v) :: rest
      else if ltb k k' then (k, v) :: (k', s) :: rest
      else (k', s) :: add_to_group k v rest
  end.

Definition groupby_sum (key : Expense -> K) (df : DataFrame) : list (K * R) :=
  fold_left (fun groups row => add_to_group (key row) (amount row) groups) df [].

End GroupBy.

(** [Series.index]: the keys of a grouped series, in order. *)
Definition keys {K : Type} (groups : list (K * R)) : list K := map fst groups.

(** [Series.mean()] *)
Definition series_mean {K : Type} (s : list (K * R)) : R :=
  fold_left (fun acc kv => acc + snd kv) s 0 / INR (length s).

(** [Series.std()]: pandas' default, the sample deviation ([ddof=1]). *)
Definition series_std {K : Type} (s : list (K * R)) : R :=
  let m := series_mean s in
  sqrt (fold_left (fun acc kv => acc + (snd kv - m) * (snd kv - m)) s 0
        / (INR (length s) - 1)).

(** An entry of the returned list. *)
Record Anomaly : Type := mkAnomaly {
  anomaly_month : Z;
  total_expense : R;
  threshold : R;
  deviation : R;
  categories : list (string * R)
}.

(** [for month, total in monthly_totals.items()] *)
Fixpoint scan_months (expenses_df : DataFrame) (mean_expense std_expense thr : R)
  (items : list (Z * R)) : list Anomaly :=
  match items with
  | [] => []
  | (m, total) :: rest =>
      if Rlt_dec thr total then
        let month_data := filter (fun row => (month row =? m)%Z) expenses_df in
        mkAnomaly m total thr ((total - mean_expense) / std_expense)
                  (groupby_sum String.eqb String.ltb category month_data)
          :: scan_months expenses_df mean_expense std_expense thr rest
      else scan_months expenses_df mean_expense std_expense thr rest
  end.

Definition monthly_totals (expenses_df : DataFrame) : list (Z * R) :=
  groupby_sum Z.eqb Z.ltb month expenses_df.

Definition _rule_based_detection (expenses_df : DataFrame) : list Anomaly :=
  let totals := monthly_totals expenses_df in
  if (length totals <? 3)%nat then []
  else
    let mean_expense := series_mean totals in
    let std_expense := series_std totals in
    let thr := mean_expense + 2 * std_expense in
    scan_months expenses_df mean_expense std_expense thr totals.

End ExpenseAnomalyDetector.

(** ** Notions used to state the properties *)

(** The closed formula of the spec for the EMI, with [m = r / 1200],
    before rounding. *)
Definition emi_formula (P r : Q) (n : Z) : Q :=
  let m := r / 1200 in
  if Qeq_bool m 0 then P / inject_Z n
  else P * m * (1 + m) ^ n / ((1 + m) ^ n - 1).

(** The annuity-due future value of the spec for the SIP, with
    [m = r / 1200], before rounding. *)
Definition sip_formula (A r : Q) (n : Z) : Q :=
  let m := r / 1200 in
  if Qeq_bool m 0 then A * inject_Z n
  else A * (((1 + m) ^ n - 1) / m) * (1 + m).

(** An annual rate in percent that is zero or between 1 and 100.  The
    rates strictly between 0 and 1 are left out: among them are those
    for which floating point computes [(1 + r/1200) ** n - 1] with few
    or no correct digits. *)
Definition ordinary_rate (r : Q) : Prop := r == 0 \/ (1 <= r /\ r <= 100).

(** An instance of the float power for closed examples: the exponent
    truncated to a whole number. *)
Definition whole_pow (b y : Q) : PyResult Q := py_pow b (Qfloor y).

(** One iteration of the schedule loop on the running balance:
    [balance -= emi - balance * monthly_rate]. *)
Definition next_balance (m E b : Q) : Q := b - (E - b * m).

(** The running (unclamped) balance [k] iterations after balance [b]. *)
Fixpoint balance_after (m E : Q) (k : nat) (b : Q) : Q :=
  match k with
  | O => b
  | S k' => balance_after m E k' (next_balance m E b)
  end.

(** [f 0 + ... + f (k - 1)] *)
Fixpoint sum_upto (f : nat -> Q) (k : nat) : Q :=
  match k with
  | O => 0
  | S k' => sum_upto f k' + f k'
  end.

(** [1 + q + ... + q^(k-1)] *)
Definition geom_sum (q : Q) (k : nat) : Q :=
  sum_upto (fun j => q ^ Z.of_nat j) k.


(** Four months of 10000 and one of 50000, one expense row a month. *)
Definition spike_after_four : ExpenseAnomalyDetector.DataFrame :=
  [ ExpenseAnomalyDetector.mkExpense 1 "Others" 10000%R;
    ExpenseAnomalyDetector.mkExpense 2 "Others" 10000%R;
    ExpenseAnomalyDetector.mkExpense 3 "Others" 10000%R;
    ExpenseAnomalyDetector.mkExpense 4 "Others" 10000%R;
    ExpenseAnomalyDetector.mkExpense 5 "Others" 50000%R ].

(** Five months of 10000 and one of 50000. *)
Definition spike_after_five : ExpenseAnomalyDetector.DataFrame :=
  [ ExpenseAnomalyDetector.mkExpense 1 "Others" 10000%R;
    ExpenseAnomalyDetector.mkExpense 2 "Others" 10000%R;
    ExpenseAnomalyDetector.mkExpense 3 "Others" 10000%R;
    ExpenseAnomalyDetector.mkExpense 4 "Others" 10000%R;
    ExpenseAnomalyDetector.mkExpense 5 "Others" 10000%R;
    ExpenseAnomalyDetector.mkExpense 6 "Others" 50000%R ].

(** ** utils/calculations.py: the remaining calculators *)

Module Calculator.

Section FloatPower.

Variable float_pow : Q -> Q -> PyResult Q.

(** [calculate_lump_sum_value(principal, annual_return, years)] *)
Definition calculate_lump_sum_value (principal annual_return years : Q)
  : PyResult Q :=
  pw <- float_pow (1 + annual_return / 100) years ;;
  Ok (round2 (principal * pw)).

(** [calculate_cagr(initial_value, final_value, years)] *)
Definition calculate_cagr (initial_value final_value years : Q) : PyResult Q :=
  if Qle_bool initial_value 0 || Qle_bool years 0 then Ok 0
  else
    ratio <- py_div final_value initial_value ;;
    exponent <- py_div 1 years ;;
    pw <- float_pow ratio exponent ;;
    Ok (round2 ((pw - 1) * 100)).

End FloatPower.

(** [calculate_tax_savings(investment_amount, tax_rate)]; [tax_rate]
    defaults to [30.0]. *)
Definition calculate_tax_savings (investment_amount tax_rate : Q) : Q :=
  let max_80c := 150000 in
  let eligible_amount := Qmin investment_amount max_80c in
  let tax_savings := eligible_amount * (tax_rate / 100) in
  round2 tax_savings.

(** [sum(d.values())] for a dict given as its items in order. *)
Definition sum_values (d : list (string * Q)) : Q :=
  fold_left (fun acc kv => acc + snd kv) d 0.

Record NetWorth : Type := mkNetWorth {
  total_assets : Q;
  total_liabilities : Q;
  net_worth : Q
}.

(** [calculate_net_worth(assets, liabilities)] *)
Definition calculate_net_worth (assets liabilities : list (string * Q))
  : NetWorth :=
  let total_assets := sum_values assets in
  let total_liabilities := sum_values liabilities in
  let net_worth := total_assets - total_liabilities in
  mkNetWorth (round2 total_assets) (round2 total_liabilities) (round2 net_worth).

(** [calculate_investment_allocation(total_amount, percentages)]: the
    items of the returned dict, in the order of [percentages]. *)
Definition calculate_investment_allocation (total_amount : Q)
  (percentages : list (string * Q)) : list (string * Q) :=
  map (fun kv => (fst kv, round2 (total_amount * (snd kv / 100)))) percentages.

(** [calculate_emergency_fund(monthly_expenses, months)]; [months]
    defaults to [6]. *)
Definition calculate_emergency_fund (monthly_expenses : Q) (months : Z) : Q :=
  round2 (monthly_expenses * inject_Z months).

End Calculator.

(** ** backend/crud.py: loan rows, and pages/swp_loan_connector.py *)

Module LoanTable.

(** A row of the [loans] table: the primary key, the columns set by
    [create_loan] and the [is_active] flag. *)
Record LoanRow : Type := mkLoanRow {
  id : Z;
  loan : Crud.Loan;
  is_active : bool
}.

(** [loan.outstanding_amount = new_outstanding] *)
Definition set_outstanding (l : Crud.Loan) (new_outstanding : Q) : Crud.Loan :=
  Crud.mkLoan (Crud.loan_user_id l) (Crud.loan_principal_amount l)
    (Crud.loan_interest_rate l) (Crud.loan_tenure_months l) (Crud.emi l)
    new_outstanding.

(** [update_loan_outstanding(db, loan_id, new_outstanding)]: the table
    afterwards and the returned row ([None] when no row has the id). *)
Fixpoint update_loan_outstanding (db : list LoanRow) (loan_id : Z)
  (new_outstanding : Q) : list LoanRow * option LoanRow :=
  match db with
  | [] => ([], None)
  | row :: rest =>
      if (id row =? loan_id)%Z then
        let row' :=
          mkLoanRow (id row) (set_outstanding (loan row) new_outstanding)
            (if Qle_bool new_outstanding 0 then false else is_active row) in
        (row' :: rest, Some row')
      else
        let (rest', found) := update_loan_outstanding rest loan_id new_outstanding in
        (row :: rest', found)
  end.

(** pages/swp_loan_connector.py, "Apply This Month": the amount sent to
    the API. *)
Definition swp_new_outstanding (outstanding_amount monthly_withdrawal : Q) : Q :=
  let new_outstanding := outstanding_amount - monthly_withdrawal in
  if Qltb new_outstanding 0 then 0 else new_outstanding.

(** The button applied to the selected loan row [l]. *)
Definition apply_swp (db : list LoanRow) (l : LoanRow) (monthly_withdrawal : Q)
  : list LoanRow * option LoanRow :=
  update_loan_outstanding db (id l)
    (swp_new_outstanding (Crud.outstanding_amount (loan l)) monthly_withdrawal).

End LoanTable.

(** ** backend/schemas.py and backend/crud.py: income and expense rows *)

Module Ledger.

(** [schemas.IncomeCreate] *)
Record IncomeCreate : Type := mkIncomeCreate {
  ic_user_id : Z;
  ic_month : Z;
  salary : Q;
  other_income : Q
}.

(** Construction: [salary] and [other_income] are [Field(ge=0)]. *)
Definition IncomeCreate_validate (user_id month : Z) (salary other_income : Q)
  : PyResult IncomeCreate :=
  if Qle_bool 0 salary && Qle_bool 0 other_income
  then Ok (mkIncomeCreate user_id month salary other_income)
  else Raise ValidationError.

(** [create_income(db, income)]: the table row stores [total_income]. *)
Definition create_income (db : Snapshot.Db) (income : IncomeCreate) : Snapshot.Db :=
  let total := salary income + other_income income in
  Snapshot.mkDb (Snapshot.stocks db) (Snapshot.sips db)
    (Snapshot.mutual_funds db) (Snapshot.lump_sums db) (Snapshot.loans db)
    (Snapshot.credit_cards db)
    (Snapshot.incomes db
       ++ [Snapshot.mkHolding (ic_user_id income) (ic_month income) (Some total)])
    (Snapshot.expenses db).

(** [schemas.ExpenseCreate] *)
Record ExpenseCreate : Type := mkExpenseCreate {
  ec_user_id : Z;
  ec_month : Z;
  ec_category : string;
  ec_amount : Q
}.

(** Construction: [amount] is [Field(gt=0)]. *)
Definition ExpenseCreate_validate (user_id month : Z) (category : string)
  (amount : Q) : PyResult ExpenseCreate :=
  if Qgtb amount 0 then Ok (mkExpenseCreate user_id month category amount)
  else Raise ValidationError.

(** [create_expense(db, expense)] *)
Definition create_expense (db : Snapshot.Db) (expense : ExpenseCreate) : Snapshot.Db :=
  Snapshot.mkDb (Snapshot.stocks db) (Snapshot.sips db)
    (Snapshot.mutual_funds db) (Snapshot.lump_sums db) (Snapshot.loans db)
    (Snapshot.credit_cards db) (Snapshot.incomes db)
    (Snapshot.expenses db
       ++ [Snapshot.mkHolding (ec_user_id expense) (ec_month expense)
             (Some (ec_amount expense))]).

(** [get_total_expenses_by_month(db, user_id, month)] *)
Definition get_total_expenses_by_month (db : Snapshot.Db) (uid m : Z) : Q :=
  Snapshot.py_sum (fun e => Snapshot.the (Snapshot.amount e))
    (Snapshot.by_month (Snapshot.expenses db) uid m).

End Ledger.

(** ** agents/ai_agents.py: the fallback risk assessment *)

Module RiskAnalysisAgent.

(** What [_fallback_risk_assessment] derives; the returned [assessment]
    text is formatted from these three. *)
Record RiskAssessment : Type := mkRiskAssessment {
  recommended_risk_level : string;
  strategy : string;
  investable : Q
}.

Definition _fallback_risk_assessment (age : Z) (income expenses : Q)
  (risk_appetite : string) : PyResult RiskAssessment :=
  let investable := income - expenses in
  savings_rate <- (if Qgtb income 0 then
                     q <- py_div investable income ;;
                     Ok (q * 100)
                   else Ok 0) ;;
  if (age <? 30)%Z && Qgtb savings_rate 30 && String.eqb risk_appetite "High"
  then Ok (mkRiskAssessment "High" "Aggressive growth with equity focus" investable)
  else if (50 <? age)%Z || Qltb savings_rate 20
  then Ok (mkRiskAssessment "Low" "Conservative with debt focus" investable)
  else Ok (mkRiskAssessment "Medium" "Balanced approach with diversification"
             investable).

End RiskAnalysisAgent.

(** ** ml_models/rl_portfolio.py *)

Module PortfolioOptimizer.

(** A value stored in the returned dict. *)
Inductive PyVal : Type :=
| VTable (t : list (string * Z))
| VFloat (x : Q)
| VStr (s : string).

(** [d.get(key)] on a dict given as its items. *)
Fixpoint dict_get {V : Type} (key : string) (d : list (string * V)) : option V :=
  match d with
  | [] => None
  | (k, v) :: rest => if String.eqb k key then Some v else dict_get key rest
  end.

(** [risk_map.get(risk_level, 1)] *)
Definition risk_map_get (risk_level : string) : Z :=
  match dict_get risk_level [("Low"%string, 0%Z); ("Medium"%string, 1%Z); ("High"%string, 2%Z)] with
  | Some level => level
  | None => 1%Z
  end.

Definition allocation_low : list (string * Z) :=
  [("SIP"%string, 30); ("MutualFunds"%string, 25); ("Stocks"%string, 10); ("FD"%string, 25);
   ("Savings"%string, 10); ("Insurance"%string, 0)]%Z.

Definition allocation_medium : list (string * Z) :=
  [("SIP"%string, 25); ("MutualFunds"%string, 30); ("Stocks"%string, 20); ("FD"%string, 15);
   ("Savings"%string, 5); ("Insurance"%string, 5)]%Z.

Definition allocation_high : list (string * Z) :=
  [("SIP"%string, 20); ("MutualFunds"%string, 25); ("Stocks"%string, 40); ("FD"%string, 5);
   ("Savings"%string, 5); ("Insurance"%string, 5)]%Z.

(** [allocations.get(level, allocations[1])] *)
Definition allocations_get (level : Z) : list (string * Z) :=
  if (level =? 0)%Z then allocation_low
  else if (level =? 1)%Z then allocation_medium
  else if (level =? 2)%Z then allocation_high
  else allocation_medium.

(** [PortfolioOptimizer(initial_amount).get_allocation(risk_level)] *)
Definition get_allocation (initial_amount : Q) (risk_level : string)
  : list (string * PyVal) :=
  let level := risk_map_get risk_level in
  [ ("recommended_allocation"%string, VTable (allocations_get level));
    ("total_amount"%string, VFloat initial_amount);
    ("risk_level"%string, VStr risk_level);
    ("method"%string, VStr "rule_based"%string) ].

(** [get_optimal_allocation(amount, risk_level)] *)
Definition get_optimal_allocation (amount : Q) (risk_level : string)
  : list (string * PyVal) :=
  get_allocation amount risk_level.

End PortfolioOptimizer.

(** ** ml_models/xgboost_returns.py: the untrained predictor *)

Module InvestmentReturnPredictor.

(** [features.get(key, default)] on the numeric feature dict. *)
Definition feature_get (features : list (string * Q)) (key : string)
  (default : Q) : Q :=
  match PortfolioOptimizer.dict_get key features with
  | Some v => v
  | None => default
  end.

(** [_fallback_prediction(features)] *)
Definition _fallback_prediction (features : list (string * Q)) : Q :=
  let risk_level := feature_get features "risk_level"%string 1 in
  let base_return :=
    if Qeq_bool risk_level 0 then 13 # 2
    else if Qeq_bool risk_level 1 then 10
    else if Qeq_bool risk_level 2 then 14
    else 10 in
  let market_trend := feature_get features "market_trend"%string 0 in
  let predicted_return := base_return + market_trend * 2 in
  round2 predicted_return.

Record Prediction : Type := mkPrediction {
  investment_amount : Q;
  duration_months : Z;
  risk_level : string;
  predicted_annual_return : Q;
  estimated_future_value : Q;
  estimated_gains : Q
}.

Section FloatPower.

Variable float_pow : Q -> Q -> PyResult Q.

(** [predict_investment_return(investment_amount, duration_months,
    risk_level, asset_type)]: the predictor is created on the spot and
    never trained, so [predict_return] takes its fallback. *)
Definition predict_investment_return (investment_amount : Q)
  (duration_months : Z) (risk_level asset_type : string) : PyResult Prediction :=
  let risk := match PortfolioOptimizer.dict_get risk_level
                      [("Low"%string, 0); ("Medium"%string, 1); ("High"%string, 2)] with
              | Some v => v | None => 1 end in
  let asset := match PortfolioOptimizer.dict_get asset_type
                       [("Debt"%string, 0); ("Hybrid"%string, 1); ("Equity"%string, 2)] with
               | Some v => v | None => 1 end in
  let features :=
    [ ("investment_amount"%string, investment_amount);
      ("duration_months"%string, inject_Z duration_months);
      ("risk_level"%string, risk);
      ("market_trend"%string, 0);
      ("asset_type"%string, asset);
      ("historical_return"%string, 10);
      ("volatility"%string, 15);
      ("expense_ratio"%string, 3 # 2);
      ("aum"%string, 1000);
      ("fund_age_years"%string, 5) ] in
  let predicted_return := _fallback_prediction features in
  let years := inject_Z duration_months / 12 in
  pw <- float_pow (1 + predicted_return / 100) years ;;
  let future_value := investment_amount * pw in
  Ok (mkPrediction investment_amount duration_months risk_level
        predicted_return (round2 future_value)
        (round2 (future_value - investment_amount))).

End FloatPower.

End InvestmentReturnPredictor.

(** ** ml_models/autoencoder_anomaly.py: the detector around the fallback *)

Module AnomalyDetection.

Import ExpenseAnomalyDetector.

(** The fields of an [ExpenseAnomalyDetector] the control flow reads;
    the Keras model and the scaler stay abstract. *)
Record Detector : Type := mkDetector {
  is_trained : bool;
  detector_threshold : R
}.

(** [ExpenseAnomalyDetector()]: untrained, threshold [0.8]. *)
Definition new_detector : Detector := mkDetector false (8 / 10)%R.

(** What [detect_expense_anomalies] returns. *)
Record Detection (A : Type) : Type := mkDetection {
  method : string;
  anomalies : list A;
  total_anomalies : nat;
  reported_threshold : option R
}.

Arguments mkDetection {A}.
Arguments method {A}.
Arguments anomalies {A}.
Arguments total_anomalies {A}.
Arguments reported_threshold {A}.

Section Autoencoder.

(** An entry reported by the trained autoencoder, the threshold fitted
    by training and the entries the trained model reports. *)
Variable ModelAnomaly : Type.
Variable fitted_threshold : DataFrame -> R.
Variable model_anomalies : Detector -> DataFrame -> list ModelAnomaly.

(** [len(self.prepare_features(expenses_df))]: the pivot table has one
    row per month. *)
Definition feature_rows (expenses_df : DataFrame) : nat :=
  length (monthly_totals expenses_df).

(** [train(expenses_df)]: returns early, untrained, on fewer than five
    months. *)
Definition train (d : Detector) (expenses_df : DataFrame) : Detector :=
  if (feature_rows expenses_df <? 5)%nat then d
  else mkDetector true (fitted_threshold expenses_df).

(** [detect_anomalies(expenses_df)] *)
Definition detect_anomalies (d : Detector) (expenses_df : DataFrame)
  : list (Anomaly + ModelAnomaly) :=
  if negb (is_trained d) then map inl (_rule_based_detection expenses_df)
  else map inr (model_anomalies d expenses_df).

(** [detect_expense_anomalies(expenses_df)] *)
Definition detect_expense_anomalies (expenses_df : DataFrame)
  : Detection (Anomaly + ModelAnomaly) :=
  let detector := new_detector in
  if (length expenses_df <? 10)%nat then
    let anomalies := map inl (_rule_based_detection expenses_df) in
    mkDetection "rule_based" anomalies (length anomalies) None
  else
    let detector := train detector expenses_df in
    let anomalies := detect_anomalies detector expenses_df in
    mkDetection "autoencoder" anomalies (length anomalies)
      (Some (detector_threshold detector)).

End Autoencoder.

End AnomalyDetection.

(** ** Further notions used to state the properties *)

(** A whole number of cents. *)
Definition whole_cents (x : Q) : Prop := exists c : Z, x == inject_Z c / 100.

(** The table with only the rows of one user. *)
Definition own_rows (db : Snapshot.Db) (uid : Z) : Snapshot.Db :=
  Snapshot.mkDb
    (Snapshot.by_user (Snapshot.stocks db) uid)
    (Snapshot.by_user (Snapshot.sips db) uid)
    (Snapshot.by_user (Snapshot.mutual_funds db) uid)
    (Snapshot.by_user (Snapshot.lump_sums db) uid)
    (Snapshot.by_user (Snapshot.loans db) uid)
    (Snapshot.by_user (Snapshot.credit_cards db) uid)
    (Snapshot.by_user (Snapshot.incomes db) uid)
    (Snapshot.by_user (Snapshot.expenses db) uid).

(** The rows the snapshot of a user and month reads. *)
Definition rows_read (db : Snapshot.Db) (uid m : Z) : list Snapshot.Holding :=
  Snapshot.by_user (Snapshot.stocks db) uid
  ++ Snapshot.by_user (Snapshot.sips db) uid
  ++ Snapshot.by_user (Snapshot.mutual_funds db) uid
  ++ Snapshot.by_user (Snapshot.lump_sums db) uid
  ++ Snapshot.by_user (Snapshot.loans db) uid
  ++ Snapshot.by_user (Snapshot.credit_cards db) uid
  ++ Snapshot.by_month (Snapshot.incomes db) uid m
  ++ Snapshot.by_month (Snapshot.expenses db) uid m.

(** The sum of the values of a grouped series. *)
Definition series_total {K : Type} (s : list (K * R)) : R :=
  fold_left (fun acc kv => (acc + snd kv)%R) s 0%R.

(** The sum of the [amount] column. *)
Definition amount_total (df : ExpenseAnomalyDetector.DataFrame) : R :=
  fold_left (fun acc row => (acc + ExpenseAnomalyDetector.amount row)%R) df 0%R.

(** * Properties *)

(** ** Rounding to two decimals *)

Lemma Qgtb_true (a b : Q) : Qgtb a b = true <-> b < a.
Proof.
  unfold Qgtb. rewrite negb_true_iff, <- not_true_iff_false, Qle_bool_iff.
  split; intro H; [apply Qnot_le_lt | apply Qlt_not_le]; exact H.
Qed.

Lemma Qgtb_false (a b : Q) : Qgtb a b = false <-> a <= b.
Proof.
  unfold Qgtb. rewrite negb_false_iff. apply Qle_bool_iff.
Qed.

Lemma Qeq_bool_false (a b : Q) : ~ a == b -> Qeq_bool a b = false.
Proof.
  intro H. apply not_true_iff_false. intro E. apply H, Qeq_bool_iff, E.
Qed.

Lemma round_half_even_wd (x y : Q) : x == y -> round_half_even x = round_half_even y.
Proof.
  intro E. unfold round_half_even.
  rewrite (Qfloor_comp x y E).
  assert (C : Qcompare (x - inject_Z (Qfloor y)) (1 # 2)
              = Qcompare (y - inject_Z (Qfloor y)) (1 # 2)).
  { apply Qcompare_comp; [rewrite E|]; reflexivity. }
  rewrite C. reflexivity.
Qed.

Lemma round2_wd (x y : Q) : x == y -> round2 x = round2 y.
Proof.
  intro E. unfold round2. f_equal. apply round_half_even_wd.
  rewrite E. reflexivity.
Qed.

Lemma round_half_even_near (x : Q) :
  x - (1 # 2) <= inject_Z (round_half_even x) /\
  inject_Z (round_half_even x) <= x + (1 # 2).
Proof.
  unfold round_half_even.
  pose proof (Qfloor_le x) as Hlo.
  pose proof (Qlt_floor x) as Hhi.
  rewrite inject_Z_plus in Hhi. change (inject_Z 1) with 1 in Hhi.
  set (f := Qfloor x) in *.
  destruct (Qcompare (x - inject_Z f) (1 # 2)) eqn:C.
  - apply Qeq_alt in C.
    destruct (Z.even f); [|rewrite inject_Z_plus; change (inject_Z 1) with 1];
      split; lra.
  - apply Qlt_alt in C. split; lra.
  - apply Qgt_alt in C. rewrite inject_Z_plus. change (inject_Z 1) with 1.
    split; lra.
Qed.

Lemma round2_as_div (x : Q) : round2 x == inject_Z (round_half_even (x * 100)) / 100.
Proof.
  unfold round2. rewrite (Qmake_Qdiv _ 100). reflexivity.
Qed.

(** [round(x, 2)] is within half a cent of [x]. *)
Lemma round2_near (x : Q) : x - (1 # 200) <= round2 x /\ round2 x <= x + (1 # 200).
Proof.
  rewrite round2_as_div.
  destruct (round_half_even_near (x * 100)) as [L U].
  set (z := inject_Z (round_half_even (x * 100))) in *.
  assert (E : z / 100 == z * (1 # 100)) by (field).
  rewrite E. split; lra.
Qed.

Lemma round2_nonneg (x : Q) : 0 <= x -> 0 <= round2 x.
Proof.
  intro H. rewrite round2_as_div.
  assert (Z : (0 <= round_half_even (x * 100))%Z).
  { unfold round_half_even.
    assert (F : (Qfloor 0 <= Qfloor (x * 100))%Z)
      by (apply Qfloor_resp_le; lra).
    change (Qfloor 0) with 0%Z in F.
    destruct (Qcompare _ _); [destruct (Z.even _)| |]; lia. }
  apply Qle_shift_div_l; [reflexivity|].
  rewrite Qmult_0_l. change 0 with (inject_Z 0). rewrite <- Zle_Qle. exact Z.
Qed.

Lemma Qabs_le_of_bounds (x y : Q) : - y <= x -> x <= y -> Qabs x <= y.
Proof.
  intros L U. apply Qabs_Qle_condition. split; assumption.
Qed.

Lemma round_half_even_mono (x y : Q) :
  x <= y -> (round_half_even x <= round_half_even y)%Z.
Proof.
  intro H. unfold round_half_even.
  pose proof (Qfloor_resp_le x y H) as F.
  pose proof (Qfloor_le x) as Lx. pose proof (Qlt_floor x) as Ux.
  pose proof (Qfloor_le y) as Ly. pose proof (Qlt_floor y) as Uy.
  rewrite inject_Z_plus in Ux, Uy. change (inject_Z 1) with 1 in Ux, Uy.
  destruct (Z.eq_dec (Qfloor x) (Qfloor y)) as [E | N].
  - rewrite E in *. set (f := Qfloor y) in *.
    destruct (Qcompare (x - inject_Z f) (1 # 2)) eqn:Cx;
      destruct (Qcompare (y - inject_Z f) (1 # 2)) eqn:Cy;
      try (destruct (Z.even f)); try lia; exfalso;
      repeat match goal with
             | C : Qcompare _ _ = Eq |- _ => apply Qeq_alt in C
             | C : Qcompare _ _ = Lt |- _ => apply Qlt_alt in C
             | C : Qcompare _ _ = Gt |- _ => apply Qgt_alt in C
             end; lra.
  - assert (S : (Qfloor x + 1 <= Qfloor y)%Z) by lia.
    destruct (Qcompare (x - inject_Z (Qfloor x)) (1 # 2));
      destruct (Qcompare (y - inject_Z (Qfloor y)) (1 # 2));
      try (destruct (Z.even (Qfloor x))); try (destruct (Z.even (Qfloor y)));
      lia.
Qed.

(** [round(x, 2)] is monotone. *)
Lemma round2_mono (x y : Q) : x <= y -> round2 x <= round2 y.
Proof.
  intro H. unfold round2, Qle. cbn.
  apply Z.mul_le_mono_nonneg_r; [lia|].
  apply round_half_even_mono. lra.
Qed.

(** [round(x, 2)] is a whole number of cents. *)
Lemma round2_whole_cents (x : Q) : whole_cents (round2 x).
Proof.
  exists (round_half_even (x * 100)). apply round2_as_div.
Qed.

(** [round(x, 2)] is within a cent of [x]. *)
Lemma round2_within_a_cent (x y : Q) : x == y -> Qabs (round2 x - y) <= 1 # 100.
Proof.
  intro E. destruct (round2_near x) as [L U].
  apply Qabs_le_of_bounds; lra.
Qed.

Lemma round2_nonpos (x : Q) : x <= 0 -> round2 x <= 0.
Proof.
  intro H. apply Qle_trans with (round2 0); [apply round2_mono, H|].
  vm_compute. discriminate.
Qed.

(** ** The EMI *)

Lemma monthly_rate_1200 (r : Q) : r / (12 * 100) == r / 1200.
Proof. field. Qed.

Lemma monthly_rate_pos (r : Q) : 0 < r -> 0 < r / (12 * 100).
Proof.
  intro H. apply Qlt_shift_div_l; [reflexivity | lra].
Qed.

Lemma py_pow_growth (m : Q) (n : Z) :
  0 <= m -> py_pow (1 + m) n = Ok ((1 + m) ^ n).
Proof.
  intro H. unfold py_pow.
  rewrite (Qeq_bool_false (1 + m) 0); [reflexivity | lra].
Qed.

Lemma py_div_nonzero (a b : Q) : ~ b == 0 -> py_div a b = Ok (a / b).
Proof.
  intro H. unfold py_div. rewrite (Qeq_bool_false b 0 H). reflexivity.
Qed.

Lemma py_div_zero (a b : Q) : b == 0 -> py_div a b = Raise ZeroDivisionError.
Proof.
  intro H. unfold py_div. apply Qeq_bool_iff in H. rewrite H. reflexivity.
Qed.

Lemma growth_minus_1_pos (m : Q) (n : Z) :
  0 < m -> (0 < n)%Z -> 0 < (1 + m) ^ n - 1.
Proof.
  intros Hm Hn.
  assert (H : 1 < (1 + m) ^ n) by (apply Qpower_1_lt; [lra | exact Hn]).
  lra.
Qed.

Lemma emi_formula_code (P r : Q) (n : Z) :
  0 < r ->
  let m := r / (12 * 100) in
  P * m * (1 + m) ^ n / ((1 + m) ^ n - 1) == emi_formula P r n.
Proof.
  intros Hr m. unfold emi_formula.
  assert (Hm : 0 < r / 1200) by (rewrite <- monthly_rate_1200; apply monthly_rate_pos, Hr).
  rewrite (Qeq_bool_false (r / 1200) 0)
    by (apply Qnot_eq_sym, Qlt_not_eq, Hm).
  unfold m. rewrite (monthly_rate_1200 r). reflexivity.
Qed.

Lemma calculate_emi_positive_rate (P r : Q) (n : Z) :
  0 < r -> (0 < n)%Z ->
  FinancialCalculator.calculate_emi P r n = Ok (round2 (emi_formula P r n)).
Proof.
  intros Hr Hn. unfold FinancialCalculator.calculate_emi.
  pose proof (monthly_rate_pos r Hr) as Hm.
  set (m := r / (12 * 100)) in *.
  assert (G : Qgtb m 0 = true) by (apply Qgtb_true, Hm).
  rewrite G, py_pow_growth by lra. cbn [bind].
  pose proof (growth_minus_1_pos m n Hm Hn) as Hd.
  rewrite py_div_nonzero by lra. cbn [bind].
  f_equal. apply round2_wd. apply (emi_formula_code P r n Hr).
Qed.

Lemma calculate_emi_zero_rate (P r : Q) (n : Z) :
  r == 0 -> (0 < n)%Z ->
  FinancialCalculator.calculate_emi P r n = Ok (round2 (P / inject_Z n)).
Proof.
  intros Hr Hn. unfold FinancialCalculator.calculate_emi.
  assert (Hm : r / (12 * 100) == 0) by (rewrite Hr; reflexivity).
  assert (G : Qgtb (r / (12 * 100)) 0 = false) by (apply Qgtb_false; lra).
  rewrite G.
  assert (Hz : ~ inject_Z n == 0).
  { intro E. unfold Qeq in E. cbn in E. lia. }
  rewrite py_div_nonzero by exact Hz. reflexivity.
Qed.

Lemma create_loan_positive_rate (db : list Crud.Loan) (uid : Z) (P r : Q) (n : Z) :
  0 < r -> (0 < n)%Z ->
  Crud.create_loan db (Crud.mkLoanCreate uid P r n) =
    let l := Crud.mkLoan uid P r n (round2 (emi_formula P r n)) P in
    Ok (db ++ [l], l).
Proof.
  intros Hr Hn. unfold Crud.create_loan. cbn [Crud.principal_amount
    Crud.interest_rate Crud.tenure_months Crud.lc_user_id].
  pose proof (monthly_rate_pos r Hr) as Hm.
  set (m := r / (12 * 100)) in *.
  rewrite py_pow_growth by lra. cbn [bind].
  pose proof (growth_minus_1_pos m n Hm Hn) as Hd.
  rewrite py_div_nonzero by lra. cbn [bind].
  subst m. pose proof (emi_formula_code P r n Hr) as K. cbv zeta in K.
  rewrite (round2_wd _ _ K). reflexivity.
Qed.

(** C1 (as amended).  For a principal [0 < P <= 10^9], a tenure
    [0 < n <= 1200] and an annual rate [r] that is zero or between 1 and
    100, [calculate_emi] returns a whole number of cents within one cent
    of the spec's formula: of [P/n] when [r = 0], of
    [P*m*(1+m)^n / ((1+m)^n - 1)] with [m = r/1200] otherwise.  Loan
    creation accepts only [r > 0] ([LoanCreate] requires
    [interest_rate > 0]), and for such a loan the EMI stored by
    [create_loan] is the value [calculate_emi] returns. *)
Theorem emi_is_formula_to_the_cent (P r : Q) (n : Z) :
  0 < P -> P <= 1000000000 -> (0 < n)%Z -> (n <= 1200)%Z -> ordinary_rate r ->
  exists v : Q,
    FinancialCalculator.calculate_emi P r n = Ok v
    /\ whole_cents v
    /\ Qabs (v - emi_formula P r n) <= 1 # 100
    /\ (r == 0 -> Qabs (v - P / inject_Z n) <= 1 # 100)
    /\ (0 < r ->
        Qabs (v - P * (r / 1200) * (1 + r / 1200) ^ n
                    / ((1 + r / 1200) ^ n - 1)) <= 1 # 100
        /\ forall (db : list Crud.Loan) (uid : Z),
           exists loan db_loan,
             Crud.LoanCreate_validate uid P r n = Ok loan /\
             Crud.create_loan db loan = Ok (db ++ [db_loan], db_loan) /\
             Crud.emi db_loan = v).
Proof.
  intros HP _ Hn _ Hr.
  destruct (Qlt_le_dec 0 r) as [Hpos | Hle].
  - exists (round2 (emi_formula P r n)).
    split; [apply calculate_emi_positive_rate; assumption|].
    split; [apply round2_whole_cents|].
    split; [apply round2_within_a_cent; reflexivity|].
    split; [intro E; exfalso; lra|].
    intros _. split.
    + apply round2_within_a_cent.
      symmetry. apply (emi_formula_code P r n Hpos).
    + intros db uid.
      exists (Crud.mkLoanCreate uid P r n).
      exists (Crud.mkLoan uid P r n (round2 (emi_formula P r n)) P).
      split; [|split].
      * unfold Crud.LoanCreate_validate.
        assert (G1 : Qgtb P 0 = true) by (apply Qgtb_true, HP).
        assert (G2 : Qgtb r 0 = true) by (apply Qgtb_true, Hpos).
        assert (G3 : (0 <? n)%Z = true) by (apply Z.ltb_lt, Hn).
        rewrite G1, G2, G3. reflexivity.
      * apply create_loan_positive_rate; assumption.
      * reflexivity.
  - assert (E : r == 0) by (destruct Hr as [E | [L _]]; [exact E | lra]).
    assert (F : emi_formula P r n == P / inject_Z n).
    { unfold emi_formula. cbv zeta.
      assert (B : Qeq_bool (r / 1200) 0 = true).
      { apply Qeq_bool_iff. rewrite E. reflexivity. }
      rewrite B. reflexivity. }
    exists (round2 (P / inject_Z n)).
    split; [apply calculate_emi_zero_rate; assumption|].
    split; [apply round2_whole_cents|].
    split; [apply round2_within_a_cent; symmetry; exact F|].
    split; [intros _; apply round2_within_a_cent; reflexivity|].
    intro Hpos. exfalso. lra.
Qed.

Lemma emi_is_formula_to_the_cent_witness :
  exists v : Q,
    FinancialCalculator.calculate_emi 1200 12 12 = Ok v
    /\ whole_cents v
    /\ Qabs (v - emi_formula 1200 12 12) <= 1 # 100
    /\ (12 == 0 -> Qabs (v - 1200 / inject_Z 12) <= 1 # 100)
    /\ (0 < 12 ->
        Qabs (v - 1200 * (12 / 1200) * (1 + 12 / 1200) ^ 12
                    / ((1 + 12 / 1200) ^ 12 - 1)) <= 1 # 100
        /\ forall (db : list Crud.Loan) (uid : Z),
           exists loan db_loan,
             Crud.LoanCreate_validate uid 1200 12 12 = Ok loan /\
             Crud.create_loan db loan = Ok (db ++ [db_loan], db_loan) /\
             Crud.emi db_loan = v).
Proof.
  apply (emi_is_formula_to_the_cent 1200 12 12);
    [reflexivity | discriminate | reflexivity | discriminate
    | right; split; discriminate].
Defined.

(** C1 fails as stated at [P = 100], [r = 0], [n = 3]: the EMI is
    [33.33], not [P/n]; and at loan creation this input is rejected by
    [LoanCreate], while the formula of [create_loan], which has no
    zero-rate branch, divides by zero. *)
Lemma emi_zero_rate_counterexample :
  FinancialCalculator.calculate_emi 100 0 3 = Ok (3333 # 100)
  /\ ~ (3333 # 100) == 100 / inject_Z 3
  /\ Crud.LoanCreate_validate 1 100 0 3 = Raise ValidationError
  /\ Crud.create_loan [] (Crud.mkLoanCreate 1 100 0 3) = Raise ZeroDivisionError.
Proof.
  repeat split; try reflexivity.
  intro H. vm_compute in H. discriminate H.
Qed.

(** A whole number of cents is its own rounding. *)
Lemma round2_cents (x : Q) (c : Z) : x == inject_Z c / 100 -> round2 x == x.
Proof.
  intro E.
  assert (E100 : x * 100 == inject_Z c) by (rewrite E; field).
  rewrite round2_as_div, (round_half_even_wd _ _ E100), E.
  unfold round_half_even. rewrite Qfloor_Z.
  assert (C : Qcompare (inject_Z c - inject_Z c) (1 # 2) = Lt).
  { apply (proj1 (Qlt_alt _ _)). lra. }
  rewrite C. reflexivity.
Qed.

(** ** The SIP future value *)

Lemma sip_formula_code (A r : Q) (n : Z) :
  0 < r ->
  let m := r / (12 * 100) in
  A * (((1 + m) ^ n - 1) / m) * (1 + m) == sip_formula A r n.
Proof.
  intros Hr m. unfold sip_formula.
  assert (Hm : 0 < r / 1200) by (rewrite <- monthly_rate_1200; apply monthly_rate_pos, Hr).
  rewrite (Qeq_bool_false (r / 1200) 0)
    by (apply Qnot_eq_sym, Qlt_not_eq, Hm).
  unfold m. rewrite (monthly_rate_1200 r). reflexivity.
Qed.

Lemma calculate_sip_value_positive_rate (A r : Q) (n : Z) :
  0 < r ->
  FinancialCalculator.calculate_sip_value A r n
    = Ok (FinancialCalculator.mkSipValue
            (round2 (A * inject_Z n)) (round2 (sip_formula A r n))).
Proof.
  intro Hr. unfold FinancialCalculator.calculate_sip_value.
  pose proof (monthly_rate_pos r Hr) as Hm.
  assert (G : Qgtb (r / (12 * 100)) 0 = true) by (apply Qgtb_true, Hm).
  rewrite G, py_pow_growth by lra. cbn [bind].
  rewrite py_div_nonzero by (apply Qnot_eq_sym, Qlt_not_eq, Hm).
  cbn [bind]. cbv zeta.
  pose proof (sip_formula_code A r n Hr) as K. cbv zeta in K.
  rewrite (round2_wd _ _ K). reflexivity.
Qed.

Lemma calculate_sip_value_zero_rate (A r : Q) (n : Z) :
  r == 0 ->
  FinancialCalculator.calculate_sip_value A r n
    = Ok (FinancialCalculator.mkSipValue
            (round2 (A * inject_Z n)) (round2 (A * inject_Z n))).
Proof.
  intro E. unfold FinancialCalculator.calculate_sip_value.
  assert (G : Qgtb (r / (12 * 100)) 0 = false).
  { apply Qgtb_false. rewrite E. discriminate. }
  rewrite G. reflexivity.
Qed.

(** C5 (as amended).  For a monthly amount [A > 0], [0 < n <= 1200]
    months and an annual rate [r] that is zero or between 1 and 100,
    with a future value of at most 10^9, [calculate_sip_value] returns
    whole numbers of cents: [total_invested] within one cent of [A*n],
    and [current_value] within one cent of the annuity-due future value
    [A * (((1+m)^n - 1)/m) * (1+m)] with [m = r/1200]; at [r = 0] the
    current value is the very value of [total_invested], [A*n] to the
    cent. *)
Theorem sip_value_is_formula_to_the_cent (A r : Q) (n : Z) :
  0 < A -> (0 < n)%Z -> (n <= 1200)%Z -> ordinary_rate r ->
  sip_formula A r n <= 1000000000 ->
  exists v : FinancialCalculator.SipValue,
    FinancialCalculator.calculate_sip_value A r n = Ok v
    /\ whole_cents (FinancialCalculator.total_invested v)
    /\ Qabs (FinancialCalculator.total_invested v - A * inject_Z n) <= 1 # 100
    /\ whole_cents (FinancialCalculator.current_value v)
    /\ Qabs (FinancialCalculator.current_value v - sip_formula A r n) <= 1 # 100
    /\ (0 < r ->
        Qabs (FinancialCalculator.current_value v
              - A * (((1 + r / 1200) ^ n - 1) / (r / 1200)) * (1 + r / 1200))
          <= 1 # 100)
    /\ (r == 0 ->
        FinancialCalculator.current_value v = FinancialCalculator.total_invested v
        /\ Qabs (FinancialCalculator.current_value v - A * inject_Z n) <= 1 # 100).
Proof.
  intros _ _ _ Hr _.
  destruct (Qlt_le_dec 0 r) as [Hpos | Hle].
  - eexists. split; [apply calculate_sip_value_positive_rate; exact Hpos|].
    cbn [FinancialCalculator.total_invested FinancialCalculator.current_value].
    split; [apply round2_whole_cents|].
    split; [apply round2_within_a_cent; reflexivity|].
    split; [apply round2_whole_cents|].
    split; [apply round2_within_a_cent; reflexivity|].
    split; [|intro E; exfalso; lra].
    intros _. apply round2_within_a_cent.
    symmetry. apply (sip_formula_code A r n Hpos).
  - assert (E : r == 0) by (destruct Hr as [E | [L _]]; [exact E | lra]).
    assert (F : sip_formula A r n == A * inject_Z n).
    { unfold sip_formula. cbv zeta.
      assert (B : Qeq_bool (r / 1200) 0 = true).
      { apply Qeq_bool_iff. rewrite E. reflexivity. }
      rewrite B. reflexivity. }
    eexists. split; [apply calculate_sip_value_zero_rate; exact E|].
    cbn [FinancialCalculator.total_invested FinancialCalculator.current_value].
    split; [apply round2_whole_cents|].
    split; [apply round2_within_a_cent; reflexivity|].
    split; [apply round2_whole_cents|].
    split; [apply round2_within_a_cent; symmetry; exact F|].
    split; [intro Hpos; exfalso; lra|].
    intros _. split; [reflexivity | apply round2_within_a_cent; reflexivity].
Qed.

Lemma sip_value_is_formula_to_the_cent_witness :
  exists v : FinancialCalculator.SipValue,
    FinancialCalculator.calculate_sip_value 5000 12 36 = Ok v
    /\ whole_cents (FinancialCalculator.total_invested v)
    /\ Qabs (FinancialCalculator.total_invested v - 5000 * inject_Z 36) <= 1 # 100
    /\ whole_cents (FinancialCalculator.current_value v)
    /\ Qabs (FinancialCalculator.current_value v - sip_formula 5000 12 36) <= 1 # 100
    /\ (0 < 12 ->
        Qabs (FinancialCalculator.current_value v
              - 5000 * (((1 + 12 / 1200) ^ 36 - 1) / (12 / 1200)) * (1 + 12 / 1200))
          <= 1 # 100)
    /\ (12 == 0 ->
        FinancialCalculator.current_value v = FinancialCalculator.total_invested v
        /\ Qabs (FinancialCalculator.current_value v - 5000 * inject_Z 36) <= 1 # 100).
Proof.
  apply (sip_value_is_formula_to_the_cent 5000 12 36);
    [reflexivity | reflexivity | discriminate | right; split; discriminate
    | vm_compute; discriminate].
Defined.

(** C5 fails as stated at [A = 1/256], [r = 0], [n = 1]: the current
    value is [0.0], not [A * n]. *)
Lemma sip_zero_rate_counterexample :
  0 < (1 # 256) /\
  FinancialCalculator.calculate_sip_value (1 # 256) 0 1
    = Ok (FinancialCalculator.mkSipValue (0 # 100) (0 # 100))
  /\ ~ (0 # 100) == (1 # 256) * inject_Z 1.
Proof.
  split; [reflexivity | split; [reflexivity | discriminate]].
Qed.

(** ** The EMI outside its domain *)

Lemma shrink_minus_1_nonzero (m : Q) (n : Z) :
  0 < m -> (n < 0)%Z -> ~ (1 + m) ^ n - 1 == 0.
Proof.
  intros Hm Hn E.
  assert (G : 1 < (1 + m) ^ (- n)) by (apply Qpower_1_lt; [lra | lia]).
  rewrite Qpower_opp in G.
  assert (E1 : (1 + m) ^ n == 1) by lra.
  rewrite E1 in G. vm_compute in G. discriminate G.
Qed.

(** C6 (as amended).  [calculate_emi] validates nothing and the code
    has no [InvalidInputError].  With [n = 0] it raises
    [ZeroDivisionError], whatever the principal and the rate; with
    [n < 0] it need not fail: for a principal [0 <= P <= 10^9] and a
    rate that is not positive or lies between 1 and 100 it returns a
    number, and one that is not positive. *)
Theorem emi_nonpositive_tenure (P r : Q) (n : Z) :
  (n <= 0)%Z ->
  (n = 0%Z ->
   FinancialCalculator.calculate_emi P r n = Raise ZeroDivisionError)
  /\ ((n < 0)%Z -> 0 <= P -> P <= 1000000000 ->
      r <= 0 \/ (1 <= r /\ r <= 100) ->
      exists v : Q,
        FinancialCalculator.calculate_emi P r n = Ok v /\ v <= 0).
Proof.
  intro Hn. unfold FinancialCalculator.calculate_emi. cbv zeta. split.
  - intro E. subst n.
    destruct (Qgtb (r / (12 * 100)) 0) eqn:G.
    + apply Qgtb_true in G. rewrite py_pow_growth by lra. cbn [bind].
      rewrite py_div_zero; [reflexivity|]. cbn. lra.
    + rewrite py_div_zero; reflexivity.
  - intros Hneg HP _ _.
    destruct (Qgtb (r / (12 * 100)) 0) eqn:G.
    + apply Qgtb_true in G. rewrite py_pow_growth by lra. cbn [bind].
      pose proof (shrink_minus_1_nonzero _ n G Hneg) as Nz.
      rewrite py_div_nonzero by exact Nz. cbn [bind].
      eexists. split; [reflexivity|]. apply round2_nonpos.
      set (m := r / (12 * 100)) in *.
      assert (Pw : 0 < (1 + m) ^ n) by (apply Qpower_0_lt; lra).
      assert (Lt1 : (1 + m) ^ n < 1).
      { assert (G1 : 1 < (1 + m) ^ (- n)) by (apply Qpower_1_lt; [lra | lia]).
        rewrite Qpower_opp in G1.
        set (p := (1 + m) ^ n) in *.
        assert (I : p * / p == 1) by (apply Qmult_inv_r; lra).
        destruct (Qlt_le_dec p 1) as [L | U]; [exact L|].
        exfalso.
        assert (Ip : 0 < / p) by (apply Qinv_lt_0_compat; exact Pw).
        nra. }
      set (p := (1 + m) ^ n) in *.
      assert (Num : 0 <= P * m * p).
      { apply Qmult_le_0_compat; [apply Qmult_le_0_compat|]; lra. }
      unfold Qdiv.
      assert (Inv : / (p - 1) < 0).
      { assert (Ip : 0 < / (1 - p)) by (apply Qinv_lt_0_compat; lra).
        assert (E : / (p - 1) == - / (1 - p)) by (field; lra).
        rewrite E. lra. }
      nra.
    + apply Qgtb_false in G.
      assert (Hz : ~ inject_Z n == 0).
      { intro E. unfold Qeq in E. cbn in E. lia. }
      rewrite py_div_nonzero by exact Hz. cbn [bind].
      eexists. split; [reflexivity|]. apply round2_nonpos.
      assert (Nn : inject_Z n < 0).
      { change 0 with (inject_Z 0). rewrite <- Zlt_Qlt. exact Hneg. }
      unfold Qdiv.
      assert (Inv : / inject_Z n < 0).
      { assert (Ip : 0 < / (- inject_Z n)) by (apply Qinv_lt_0_compat; lra).
        assert (E : / inject_Z n == - / (- inject_Z n)) by (field; lra).
        rewrite E. lra. }
      nra.
Qed.

Lemma emi_nonpositive_tenure_witness :
  ((-12)%Z = 0%Z ->
   FinancialCalculator.calculate_emi 1000 12 (-12) = Raise ZeroDivisionError)
  /\ ((-12 < 0)%Z -> 0 <= 1000 -> 1000 <= 1000000000 ->
      12 <= 0 \/ (1 <= 12 /\ 12 <= 100) ->
      exists v : Q,
        FinancialCalculator.calculate_emi 1000 12 (-12) = Ok v /\ v <= 0).
Proof.
  apply (emi_nonpositive_tenure 1000 12 (-12)). discriminate.
Defined.

(** C6 fails as stated at [P = 1000], [r = 12], [n = -12]: the call
    does not fail, it returns [-78.85]. *)
Lemma emi_negative_tenure_counterexample :
  (-12 <= 0)%Z /\
  FinancialCalculator.calculate_emi 1000 12 (-12) = Ok (-7885 # 100).
Proof.
  split; [discriminate | reflexivity].
Qed.

(** ** XIRR *)

(** C7 (as amended).  When the two lists differ in length,
    [calculate_xirr] raises nothing: it returns [0.0]. *)
Theorem xirr_length_mismatch_returns_zero
  (float_pow : Q -> Q -> PyResult Q) (cashflows : list Q) (dates : list Z) :
  length cashflows <> length dates ->
  FinancialCalculator.calculate_xirr float_pow cashflows dates = Ok 0.
Proof.
  intro H. unfold FinancialCalculator.calculate_xirr.
  apply Nat.eqb_neq in H. rewrite H. reflexivity.
Qed.

Lemma xirr_length_mismatch_returns_zero_witness :
  FinancialCalculator.calculate_xirr whole_pow [-1000; 1100] [0%Z] = Ok 0.
Proof.
  apply (xirr_length_mismatch_returns_zero whole_pow [-1000; 1100] [0%Z]).
  discriminate.
Defined.

(** C7 fails as stated at cashflows [[-1000; 1100]] and dates [[0]]:
    the result is a number, not an error. *)
Lemma xirr_length_mismatch_counterexample :
  length [-1000; 1100] <> length [0%Z] /\
  ~ (exists e, FinancialCalculator.calculate_xirr whole_pow [-1000; 1100] [0%Z]
               = Raise e).
Proof.
  split; [discriminate|]. intros [e H]. discriminate H.
Qed.

(** C10.  On two empty lists, which pass the length check,
    [calculate_xirr] returns no number: [dates[0]] raises [IndexError]. *)
Theorem xirr_empty_lists_index_error (float_pow : Q -> Q -> PyResult Q) :
  FinancialCalculator.calculate_xirr float_pow [] [] = Raise IndexError.
Proof. reflexivity. Qed.

(** ** The net-worth snapshot *)

Lemma monthly_expense_is_sum (db : Snapshot.Db) (uid m : Z) :
  Snapshot.monthly_expense db uid m
    = Snapshot.py_sum (fun e => Snapshot.the (Snapshot.amount e))
        (Snapshot.by_month (Snapshot.expenses db) uid m).
Proof.
  unfold Snapshot.monthly_expense.
  destruct (Snapshot.by_month (Snapshot.expenses db) uid m); reflexivity.
Qed.

(** C2 (as amended).  Every persisted field of a snapshot is the
    two-decimal rounding of its unrounded total, and the three equations
    hold exactly between the unrounded totals.  Between the persisted
    fields they hold up to the rounding: [total_assets] is within 0.03 of
    the sum of its five fields, [total_liabilities] within 0.015 of the
    sum of its two, and [net_worth] within 0.015 of
    [total_assets - total_liabilities]. *)
Theorem snapshot_equations_up_to_rounding (db : Snapshot.Db) (uid m : Z) :
  let s := Snapshot.compute_snapshot_data db uid m in
  (exists st si mf ls sv lo cc : Q,
      Snapshot.total_stocks_value s = round2 st /\
      Snapshot.total_sip_value s = round2 si /\
      Snapshot.total_mutual_fund_value s = round2 mf /\
      Snapshot.total_lump_sum_value s = round2 ls /\
      Snapshot.savings s = round2 sv /\
      Snapshot.total_loan_outstanding s = round2 lo /\
      Snapshot.total_credit_card_outstanding s = round2 cc /\
      Snapshot.total_assets s = round2 (st + si + mf + ls + sv) /\
      Snapshot.total_liabilities s = round2 (lo + cc) /\
      Snapshot.net_worth s = round2 ((st + si + mf + ls + sv) - (lo + cc)))
  /\ Qabs (Snapshot.total_assets s
           - (Snapshot.total_stocks_value s + Snapshot.total_sip_value s
              + Snapshot.total_mutual_fund_value s
              + Snapshot.total_lump_sum_value s + Snapshot.savings s))
       <= 3 # 100
  /\ Qabs (Snapshot.total_liabilities s
           - (Snapshot.total_loan_outstanding s
              + Snapshot.total_credit_card_outstanding s))
       <= 3 # 200
  /\ Qabs (Snapshot.net_worth s
           - (Snapshot.total_assets s - Snapshot.total_liabilities s))
       <= 3 # 200.
Proof.
  intro s. subst s. unfold Snapshot.compute_snapshot_data.
  cbn [Snapshot.total_stocks_value Snapshot.total_sip_value
       Snapshot.total_mutual_fund_value Snapshot.total_lump_sum_value
       Snapshot.savings Snapshot.total_assets Snapshot.total_loan_outstanding
       Snapshot.total_credit_card_outstanding Snapshot.total_liabilities
       Snapshot.net_worth].
  set (st := Snapshot.py_sum _ (Snapshot.by_user (Snapshot.stocks db) uid)).
  set (si := Snapshot.py_sum _ (Snapshot.by_user (Snapshot.sips db) uid)).
  set (mf := Snapshot.py_sum _ (Snapshot.by_user (Snapshot.mutual_funds db) uid)).
  set (ls := Snapshot.py_sum _ (Snapshot.by_user (Snapshot.lump_sums db) uid)).
  set (sv := Qmax _ 0).
  set (lo := Snapshot.py_sum _ (Snapshot.by_user (Snapshot.loans db) uid)).
  set (cc := Snapshot.py_sum _ (Snapshot.by_user (Snapshot.credit_cards db) uid)).
  split.
  { exists st, si, mf, ls, sv, lo, cc. repeat split; reflexivity. }
  pose proof (round2_near st) as [? ?].
  pose proof (round2_near si) as [? ?].
  pose proof (round2_near mf) as [? ?].
  pose proof (round2_near ls) as [? ?].
  pose proof (round2_near sv) as [? ?].
  pose proof (round2_near lo) as [? ?].
  pose proof (round2_near cc) as [? ?].
  pose proof (round2_near (st + si + mf + ls + sv)) as [? ?].
  pose proof (round2_near (lo + cc)) as [? ?].
  pose proof (round2_near (st + si + mf + ls + sv - (lo + cc))) as [? ?].
  repeat split; apply Qabs_le_of_bounds; lra.
Qed.

(** C2 fails as stated for a user whose only holdings are one stock
    and one SIP worth [1/256] each: both category fields round to [0.00]
    while [total_assets] rounds to [0.01]. *)
Lemma snapshot_equations_counterexample :
  let h := Snapshot.mkHolding 1 0 (Some (1 # 256)) in
  let s := Snapshot.compute_snapshot_data
             (Snapshot.mkDb [h] [h] [] [] [] [] [] []) 1 0 in
  Snapshot.total_assets s = (1 # 100)
  /\ ~ Snapshot.total_assets s
       == Snapshot.total_stocks_value s + Snapshot.total_sip_value s
          + Snapshot.total_mutual_fund_value s
          + Snapshot.total_lump_sum_value s + Snapshot.savings s.
Proof.
  split; [reflexivity | discriminate].
Qed.

(** C3 (as amended).  The [savings] field of a snapshot is
    [round(max(income_total - expense_total, 0), 2)], where
    [income_total] is the month's income record's total (0 without a
    record) and [expense_total] the sum of the month's expense amounts (0
    without any); it is never negative. *)
Theorem snapshot_savings_floor (db : Snapshot.Db) (uid m : Z) :
  let income_total :=
    match Snapshot.by_month (Snapshot.incomes db) uid m with
    | income :: _ => Snapshot.the (Snapshot.amount income)
    | [] => 0
    end in
  let expense_total :=
    Snapshot.py_sum (fun e => Snapshot.the (Snapshot.amount e))
      (Snapshot.by_month (Snapshot.expenses db) uid m) in
  Snapshot.savings (Snapshot.compute_snapshot_data db uid m)
    = round2 (Qmax (income_total - expense_total) 0)
  /\ 0 <= Snapshot.savings (Snapshot.compute_snapshot_data db uid m).
Proof.
  cbv zeta. unfold Snapshot.compute_snapshot_data. cbn [Snapshot.savings].
  rewrite monthly_expense_is_sum. split.
  - reflexivity.
  - apply round2_nonneg, Q.le_max_r.
Qed.

(** C3 fails as stated for a month with one income record of [1/256]
    and no expense: the field is [0.00], not [max(1/256 - 0, 0)]. *)
Lemma snapshot_savings_counterexample :
  let db := Snapshot.mkDb [] [] [] [] [] []
              [Snapshot.mkHolding 1 0 (Some (1 # 256))] [] in
  Snapshot.savings (Snapshot.compute_snapshot_data db 1 0) = (0 # 100)
  /\ ~ Snapshot.savings (Snapshot.compute_snapshot_data db 1 0)
       == Qmax ((1 # 256) - 0) 0.
Proof.
  split; [reflexivity | discriminate].
Qed.

(** ** The amortisation schedule *)

Lemma inject_nat_succ (k : nat) :
  inject_Z (Z.of_nat (S k)) == inject_Z (Z.of_nat k) + 1.
Proof.
  rewrite Nat2Z.inj_succ, <- Z.add_1_r, inject_Z_plus. reflexivity.
Qed.

Lemma schedule_loop_length (m E : Q) (k : nat) (month : Z) (b : Q) :
  length (FinancialCalculator.schedule_loop m E k month b) = k.
Proof.
  revert month b. induction k as [|k IH]; intros month b; cbn.
  - reflexivity.
  - rewrite IH. reflexivity.
Qed.

Lemma schedule_loop_nth (m E : Q) (k : nat) :
  forall (month : Z) (b : Q) (i : nat), (i < k)%nat ->
  nth_error (FinancialCalculator.schedule_loop m E k month b) i
    = Some (FinancialCalculator.mkRow (month + Z.of_nat i) E
              (round2 (balance_after m E i b * m))
              (round2 (E - balance_after m E i b * m))
              (round2 (Qmax (balance_after m E (S i) b) 0))).
Proof.
  induction k as [|k IH]; intros month b i Hi; [lia|].
  destruct i as [|i].
  - cbn. rewrite Z.add_0_r. reflexivity.
  - cbn [FinancialCalculator.schedule_loop nth_error].
    rewrite IH by lia.
    replace (month + 1 + Z.of_nat i)%Z with (month + Z.of_nat (S i))%Z by lia.
    reflexivity.
Qed.

Lemma balance_after_next (m E : Q) (k : nat) (b : Q) :
  balance_after m E (S k) b = next_balance m E (balance_after m E k b).
Proof.
  revert b. induction k as [|k IH]; intro b.
  - reflexivity.
  - change (balance_after m E (S (S k)) b)
      with (balance_after m E (S k) (next_balance m E b)).
    rewrite IH. reflexivity.
Qed.



Lemma Qpower_nat_succ (q : Q) (k : nat) :
  q ^ Z.of_nat (S k) == q * q ^ Z.of_nat k.
Proof.
  rewrite Nat2Z.inj_succ, <- Z.add_1_l.
  rewrite Qpower_plus' by lia. rewrite Qpower_1_r. reflexivity.
Qed.

Lemma geom_sum_succ (q : Q) (k : nat) :
  geom_sum q (S k) = geom_sum q k + q ^ Z.of_nat k.
Proof. reflexivity. Qed.


Lemma geom_sum_closed (q : Q) (k : nat) :
  (q - 1) * geom_sum q k == q ^ Z.of_nat k - 1.
Proof.
  induction k as [|k IH].
  - cbn. ring.
  - rewrite geom_sum_succ, Qpower_nat_succ.
    setoid_replace ((q - 1) * (geom_sum q k + q ^ Z.of_nat k))
      with ((q - 1) * geom_sum q k + (q - 1) * q ^ Z.of_nat k) by ring.
    rewrite IH. ring.
Qed.

Lemma geom_sum_unit (q : Q) (k : nat) :
  q == 1 -> geom_sum q k == inject_Z (Z.of_nat k).
Proof.
  intro Hq. induction k as [|k IH].
  - reflexivity.
  - rewrite geom_sum_succ, IH, inject_nat_succ, Hq, Qpower_1. reflexivity.
Qed.



(** The unrounded EMI is the one that repays the loan exactly. *)
Lemma emi_formula_repays (P r : Q) (k : nat) :
  0 <= r -> (0 < k)%nat ->
  let q := 1 + r / 1200 in
  emi_formula P r (Z.of_nat k) * geom_sum q k == P * q ^ Z.of_nat k.
Proof.
  intros Hr Hk q. unfold emi_formula. cbv zeta. fold q.
  destruct (Qeq_bool (r / 1200) 0) eqn:B.
  - apply Qeq_bool_iff in B.
    assert (Hq : q == 1) by (unfold q; rewrite B; reflexivity).
    rewrite (geom_sum_unit q k Hq), Hq, Qpower_1.
    field. intro E. unfold Qeq in E. cbn in E. lia.
  - apply Qeq_bool_neq in B.
    assert (Hm : 0 < r / 1200).
    { assert (0 <= r / 1200) by (apply Qle_shift_div_l; [reflexivity | lra]).
      apply Qle_lteq in H. destruct H as [H | H]; [exact H|].
      exfalso. apply B. symmetry. exact H. }
    pose proof (growth_minus_1_pos (r / 1200) (Z.of_nat k) Hm) as Hd.
    fold q in Hd. specialize (Hd ltac:(lia)).
    pose proof (geom_sum_closed q k) as G.
    assert (Gm : r / 1200 * geom_sum q k == q ^ Z.of_nat k - 1).
    { rewrite <- G. unfold q. ring. }
    set (X := q ^ Z.of_nat k) in *. set (S := geom_sum q k) in *.
    set (mm := r / 1200) in *.
    setoid_replace (P * mm * X / (X - 1) * S)
      with (P * X * (mm * S) / (X - 1)) by (field; lra).
    rewrite Gm. field. lra.
Qed.


Lemma calculate_emi_is_rounded_formula (P r : Q) (n : Z) :
  0 <= r -> (0 < n)%Z ->
  FinancialCalculator.calculate_emi P r n = Ok (round2 (emi_formula P r n)).
Proof.
  intros Hr Hn. destruct (Qlt_le_dec 0 r) as [Hpos | Hle].
  - apply calculate_emi_positive_rate; assumption.
  - assert (E : r == 0) by lra.
    rewrite (calculate_emi_zero_rate P r n E Hn). unfold emi_formula.
    assert (B : Qeq_bool (r / 1200) 0 = true).
    { apply Qeq_bool_iff. rewrite E. reflexivity. }
    cbv zeta. rewrite B. reflexivity.
Qed.






(** ** Rule-based anomaly detection *)

Module AnomalyFacts.

Import ExpenseAnomalyDetector.
Local Open Scope R_scope.

Lemma add_to_group_keys_forall (P : Z -> Prop) (k : Z) (v : R)
  (groups : list (Z * R)) :
  P k -> Forall P (keys groups) ->
  Forall P (keys (add_to_group Z.eqb Z.ltb k v groups)).
Proof.
  intros Hk. induction groups as [|[k' s] rest IH]; intro H; cbn.
  - constructor; [exact Hk | constructor].
  - inversion H as [|? ? Hk' Hrest]; subst.
    destruct (Z.eqb k k'); [|destruct (Z.ltb k k')]; cbn.
    + constructor; assumption.
    + constructor; [exact Hk | constructor; assumption].
    + constructor; [exact Hk' | apply IH, Hrest].
Qed.

Lemma add_to_group_sorted (k : Z) (v : R) (groups : list (Z * R)) :
  StronglySorted Z.lt (keys groups) ->
  StronglySorted Z.lt (keys (add_to_group Z.eqb Z.ltb k v groups)).
Proof.
  induction groups as [|[k' s] rest IH]; intro H; cbn.
  - constructor; constructor.
  - inversion H as [|? ? Hs Hall]; subst.
    destruct (Z.eqb_spec k k') as [E | N]; cbn.
    + constructor; assumption.
    + destruct (Z.ltb_spec k k') as [L | G]; cbn.
      * constructor; [exact H|].
        constructor; [exact L|].
        eapply Forall_impl; [|exact Hall]. cbn. intros a Ha. lia.
      * constructor; [apply IH, Hs|].
        apply add_to_group_keys_forall; [lia | exact Hall].
Qed.

Lemma groupby_sorted_from (key : Expense -> Z) (df : DataFrame)
  (groups : list (Z * R)) :
  StronglySorted Z.lt (keys groups) ->
  StronglySorted Z.lt
    (keys (fold_left
             (fun g row => add_to_group Z.eqb Z.ltb (key row) (amount row) g)
             df groups)).
Proof.
  revert groups. induction df as [|row df IH]; intros groups H; cbn.
  - exact H.
  - apply IH, add_to_group_sorted, H.
Qed.

(** The months of [monthly_totals] are strictly increasing. *)
Lemma monthly_totals_sorted (df : DataFrame) :
  StronglySorted Z.lt (keys (monthly_totals df)).
Proof.
  apply groupby_sorted_from. constructor.
Qed.

Lemma sorted_key_unique (groups : list (Z * R)) :
  StronglySorted Z.lt (keys groups) ->
  forall k v v', In (k, v) groups -> In (k, v') groups -> v = v'.
Proof.
  induction groups as [|[k0 v0] rest IH]; intros H k v v' I1 I2.
  - destruct I1.
  - cbn in H. inversion H as [|? ? Hs Hall]; subst.
    assert (Fresh : forall w, In (k0, w) rest -> False).
    { intros w Hw. rewrite Forall_forall in Hall.
      specialize (Hall k0 (in_map fst _ _ Hw)). lia. }
    destruct I1 as [E1 | I1], I2 as [E2 | I2].
    + congruence.
    + inversion E1; subst. destruct (Fresh _ I2).
    + inversion E2; subst. destruct (Fresh _ I1).
    + exact (IH Hs k v v' I1 I2).
Qed.

(** What the loop over the monthly totals appends. *)
Lemma scan_months_spec (df : DataFrame) (mean std thr : R)
  (items : list (Z * R)) (a : Anomaly) :
  In a (scan_months df mean std thr items) <->
  exists m total,
    In (m, total) items /\ total > thr /\
    a = mkAnomaly m total thr ((total - mean) / std)
          (groupby_sum String.eqb String.ltb category
             (filter (fun row => (month row =? m)%Z) df)).
Proof.
  induction items as [|[m total] rest IH]; cbn [scan_months].
  - split; [intros [] | intros (m & total & [] & _)].
  - destruct (Rlt_dec thr total) as [Hlt | Hge].
    + cbn [In]. rewrite IH. split.
      * intros [E | (m' & t' & I & G & E)].
        -- exists m, total. repeat split; [left; reflexivity | exact Hlt | auto].
        -- exists m', t'. repeat split; [right; exact I | exact G | exact E].
      * intros (m' & t' & [E0 | I] & G & E).
        -- inversion E0; subst. left. reflexivity.
        -- right. exists m', t'. repeat split; assumption.
    + rewrite IH. split.
      * intros (m' & t' & I & G & E).
        exists m', t'. repeat split; [right; exact I | exact G | exact E].
      * intros (m' & t' & [E0 | I] & G & E).
        -- inversion E0; subst. exfalso. apply Hge. exact G.
        -- exists m', t'. repeat split; assumption.
Qed.

(** C8.  With fewer than three monthly totals the rule-based detector
    returns no anomaly.  Otherwise, with
    [threshold = mean + 2 * stdev] of the monthly totals, a month is
    reported exactly when its total exceeds the threshold, and every
    reported entry carries that month's total, the threshold and the
    deviation [(total - mean) / stdev]. *)
Theorem rule_based_detection_spec (df : DataFrame) :
  let totals := monthly_totals df in
  let mean := series_mean totals in
  let std := series_std totals in
  let thr := mean + 2 * std in
  ((length totals < 3)%nat -> _rule_based_detection df = [])
  /\ ((3 <= length totals)%nat ->
      (forall m total, In (m, total) totals ->
         (exists a, In a (_rule_based_detection df) /\ anomaly_month a = m)
         <-> total > thr)
      /\ (forall a, In a (_rule_based_detection df) ->
          In (anomaly_month a, total_expense a) totals
          /\ total_expense a > thr
          /\ threshold a = thr
          /\ deviation a = (total_expense a - mean) / std)).
Proof.
  intros totals mean std thr. unfold _rule_based_detection.
  fold totals. fold mean. fold std. fold thr. split.
  - intro H. apply Nat.ltb_lt in H. rewrite H. reflexivity.
  - intro H. apply Nat.ltb_ge in H. rewrite H. split.
    + intros m total I. split.
      * intros (a & Ia & Em). apply scan_months_spec in Ia.
        destruct Ia as (m' & t' & I' & G & Ea). subst a. cbn in Em. subst m'.
        rewrite (sorted_key_unique totals (monthly_totals_sorted df)
                   m total t' I I').
        exact G.
      * intro G. eexists. split.
        -- apply scan_months_spec. exists m, total.
           split; [exact I | split; [exact G | reflexivity]].
        -- reflexivity.
    + intros a Ia. apply scan_months_spec in Ia.
      destruct Ia as (m & t & I & G & Ea). subst a. cbn.
      repeat split; assumption.
Qed.

Lemma scan_months_none (df : DataFrame) (mean std thr : R)
  (items : list (Z * R)) :
  (forall m total, In (m, total) items -> total <= thr) ->
  scan_months df mean std thr items = [].
Proof.
  intro H. induction items as [|[m total] rest IH]; cbn [scan_months].
  - reflexivity.
  - destruct (Rlt_dec thr total) as [Hlt | _].
    + specialize (H m total (or_introl eq_refl)). lra.
    + apply IH. intros m' t' I. apply (H m' t'). right. exact I.
Qed.

Lemma sqrt_between (v lo hi : R) :
  0 <= lo -> 0 <= hi -> lo * lo < v -> v < hi * hi -> lo < sqrt v < hi.
Proof.
  intros Hlo Hhi L U. split.
  - rewrite <- (sqrt_square lo Hlo). apply sqrt_lt_1_alt. nra.
  - rewrite <- (sqrt_square hi Hhi). apply sqrt_lt_1_alt. nra.
Qed.

Lemma spike_after_four_totals :
  monthly_totals spike_after_four
    = [(1%Z, 10000); (2%Z, 10000); (3%Z, 10000); (4%Z, 10000); (5%Z, 50000)].
Proof. reflexivity. Qed.

Lemma spike_after_four_statistics :
  let totals := monthly_totals spike_after_four in
  series_mean totals = 18000
  /\ 17888 < series_std totals < 17889.
Proof.
  cbv zeta. rewrite spike_after_four_totals.
  assert (M : series_mean
                [(1%Z, 10000); (2%Z, 10000); (3%Z, 10000); (4%Z, 10000);
                 (5%Z, 50000)] = 18000).
  { unfold series_mean. cbn [fold_left snd length].
    replace (INR 5) with 5 by (simpl; lra). lra. }
  split; [exact M|].
  unfold series_std. rewrite M. cbn [fold_left snd length].
  replace (INR 5) with 5 by (simpl; lra).
  apply sqrt_between; lra.
Qed.

Lemma spike_after_four_detects_nothing :
  _rule_based_detection spike_after_four = [].
Proof.
  unfold _rule_based_detection.
  destruct spike_after_four_statistics as [M [L U]].
  rewrite M. set (std := series_std _) in *.
  rewrite spike_after_four_totals. cbn [length Nat.ltb Nat.leb].
  apply scan_months_none. intros m total I. cbn [In] in I.
  repeat (destruct I as [I | I]; [inversion I; subst; lra|]).
  destruct I.
Qed.

(** C9 (as amended).  On the series [10000, 10000, 10000, 10000, 50000]
    the rule-based detector reports no month: the mean is 18000, the
    sample deviation lies between 17888 and 17889, and the threshold,
    above 53776, exceeds 50000. *)
Theorem spike_after_four_not_flagged :
  let totals := monthly_totals spike_after_four in
  _rule_based_detection spike_after_four = []
  /\ series_mean totals = 18000
  /\ 17888 < series_std totals < 17889
  /\ 50000 < series_mean totals + 2 * series_std totals.
Proof.
  cbv zeta. destruct spike_after_four_statistics as [M [L U]].
  split; [exact spike_after_four_detects_nothing|].
  split; [exact M|]. split; [split; assumption|]. rewrite M. lra.
Qed.

(** C9 fails as stated: on the series [10000, 10000, 10000, 10000, 50000]
    the fifth month is not reported. *)
Lemma spike_after_four_counterexample :
  ~ (exists a, In a (_rule_based_detection spike_after_four)
               /\ anomaly_month a = 5%Z).
Proof.
  rewrite spike_after_four_detects_nothing. intros (a & [] & _).
Qed.

Lemma spike_after_five_totals :
  monthly_totals spike_after_five
    = [(1%Z, 10000); (2%Z, 10000); (3%Z, 10000); (4%Z, 10000); (5%Z, 10000);
       (6%Z, 50000)].
Proof. reflexivity. Qed.

Lemma spike_after_five_threshold :
  let totals := monthly_totals spike_after_five in
  50000 > series_mean totals + 2 * series_std totals.
Proof.
  cbv zeta. rewrite spike_after_five_totals.
  assert (M : series_mean
                [(1%Z, 10000); (2%Z, 10000); (3%Z, 10000); (4%Z, 10000);
                 (5%Z, 10000); (6%Z, 50000)] = 50000 / 3).
  { unfold series_mean. cbn [fold_left snd length].
    replace (INR 6) with 6 by (simpl; lra). lra. }
  unfold series_std. rewrite M. cbn [fold_left snd length].
  replace (INR 6) with 6 by (simpl; lra).
  assert (B : 16329 < sqrt ((0 + (10000 - 50000 / 3) * (10000 - 50000 / 3)
                + (10000 - 50000 / 3) * (10000 - 50000 / 3)
                + (10000 - 50000 / 3) * (10000 - 50000 / 3)
                + (10000 - 50000 / 3) * (10000 - 50000 / 3)
                + (10000 - 50000 / 3) * (10000 - 50000 / 3)
                + (50000 - 50000 / 3) * (50000 - 50000 / 3)) / (6 - 1)) < 16330)
    by (apply sqrt_between; lra).
  lra.
Qed.

(** With five ordinary months before it, the month of 50000 is
    reported. *)
Lemma rule_based_detection_spec_witness :
  (3 <= length (monthly_totals spike_after_five))%nat
  /\ exists a, In a (_rule_based_detection spike_after_five)
               /\ anomaly_month a = 6%Z.
Proof.
  assert (L : (3 <= length (monthly_totals spike_after_five))%nat).
  { rewrite spike_after_five_totals. cbn [length]. lia. }
  split; [exact L|].
  destruct (rule_based_detection_spec spike_after_five) as [_ H].
  destruct (H L) as [Hiff _].
  apply (Hiff 6%Z 50000).
  - rewrite spike_after_five_totals. cbn [In]. tauto.
  - exact spike_after_five_threshold.
Defined.

End AnomalyFacts.

(** * Further properties of the code *)

(** ** More on rounding *)

Lemma whole_cents_round2 (x : Q) : whole_cents x -> round2 x == x.
Proof.
  intros [c Hc]. apply (round2_cents x c Hc).
Qed.

Lemma whole_cents_plus (x y : Q) : whole_cents x -> whole_cents y -> whole_cents (x + y).
Proof.
  intros [a Ha] [b Hb]. exists (a + b)%Z.
  rewrite Ha, Hb, inject_Z_plus. field.
Qed.

Lemma whole_cents_minus (x y : Q) : whole_cents x -> whole_cents y -> whole_cents (x - y).
Proof.
  intros [a Ha] [b Hb]. exists (a - b)%Z.
  rewrite Ha, Hb. unfold Z.sub. rewrite inject_Z_plus, inject_Z_opp. field.
Qed.

Lemma whole_cents_0 : whole_cents 0.
Proof. exists 0%Z. reflexivity. Qed.

Lemma whole_cents_wd (x y : Q) : x == y -> whole_cents x -> whole_cents y.
Proof.
  intros E [c Hc]. exists c. rewrite <- E. exact Hc.
Qed.

Lemma whole_cents_max0 (x : Q) : whole_cents x -> whole_cents (Qmax x 0).
Proof.
  intro H. destruct (Q.max_spec x 0) as [[_ E] | [_ E]].
  - apply (whole_cents_wd 0); [symmetry; exact E | exact whole_cents_0].
  - apply (whole_cents_wd x); [symmetry; exact E | exact H].
Qed.

(** ** The remaining calculators *)

(** X1.  For a non-negative tax rate, the tax saving never decreases
    with the amount invested and never exceeds the saving at the 80C cap
    of 150000; from the cap on it is constant. *)
Theorem tax_savings_monotone_and_capped (a b tax_rate : Q) :
  0 <= tax_rate -> a <= b ->
  Calculator.calculate_tax_savings a tax_rate
    <= Calculator.calculate_tax_savings b tax_rate
  /\ Calculator.calculate_tax_savings b tax_rate
       <= Calculator.calculate_tax_savings 150000 tax_rate
  /\ (150000 <= a ->
      Calculator.calculate_tax_savings a tax_rate
        = Calculator.calculate_tax_savings 150000 tax_rate).
Proof.
  intros Hr Hab. unfold Calculator.calculate_tax_savings. cbv zeta.
  assert (Hr' : 0 <= tax_rate / 100)
    by (apply Qle_shift_div_l; [reflexivity | lra]).
  set (t := tax_rate / 100) in *.
  pose proof (Q.le_min_l a 150000) as A1. pose proof (Q.le_min_r a 150000) as A2.
  pose proof (Q.le_min_r b 150000) as B2.
  assert (C : Qmin 150000 150000 == 150000) by (apply Q.min_l; lra).
  assert (M : Qmin a 150000 <= Qmin b 150000).
  { apply Q.min_glb; [lra | exact A2]. }
  split; [|split].
  - apply round2_mono. nra.
  - apply round2_mono. rewrite C. nra.
  - intro Hcap. apply round2_wd. rewrite C.
    rewrite (Q.min_r a 150000 Hcap). reflexivity.
Qed.

Lemma tax_savings_monotone_and_capped_witness :
  Calculator.calculate_tax_savings 200000 30
    <= Calculator.calculate_tax_savings 250000 30
  /\ Calculator.calculate_tax_savings 250000 30
       <= Calculator.calculate_tax_savings 150000 30
  /\ (150000 <= 200000 ->
      Calculator.calculate_tax_savings 200000 30
        = Calculator.calculate_tax_savings 150000 30).
Proof.
  apply (tax_savings_monotone_and_capped 200000 250000 30); discriminate.
Defined.

Lemma calculate_cagr_unfolded (float_pow : Q -> Q -> PyResult Q)
  (initial_value final_value years : Q) :
  Calculator.calculate_cagr float_pow initial_value final_value years
    = if Qle_bool initial_value 0 || Qle_bool years 0 then Ok 0
      else
        pw <- float_pow (final_value / initial_value) (1 / years) ;;
        Ok (round2 ((pw - 1) * 100)).
Proof.
  unfold Calculator.calculate_cagr.
  destruct (Qle_bool initial_value 0) eqn:Hi; [reflexivity|].
  destruct (Qle_bool years 0) eqn:Hy; [reflexivity|].
  cbn [orb].
  assert (Ni : ~ initial_value == 0).
  { intro E. rewrite <- not_true_iff_false, Qle_bool_iff in Hi.
    apply Hi. rewrite E. discriminate. }
  assert (Ny : ~ years == 0).
  { intro E. rewrite <- not_true_iff_false, Qle_bool_iff in Hy.
    apply Hy. rewrite E. discriminate. }
  rewrite (py_div_nonzero _ _ Ni). cbn [bind].
  rewrite (py_div_nonzero _ _ Ny). reflexivity.
Qed.

(** X2.  [calculate_cagr] returns [0.0] whenever the initial value or
    the period is not positive, whatever the final value.  Otherwise,
    for a final value that is not negative (so that the power is a
    float), neither of its two divisions can fail: when the power
    [pow(final/initial, 1/years)] returns [pw] the result is
    [round((pw - 1) * 100, 2)], and the call raises only when the power
    does. *)
Theorem cagr_guards_its_divisions (float_pow : Q -> Q -> PyResult Q)
  (initial_value final_value years : Q) :
  (initial_value <= 0 \/ years <= 0 ->
   Calculator.calculate_cagr float_pow initial_value final_value years = Ok 0)
  /\ (0 < initial_value -> 0 < years -> 0 <= final_value ->
      (forall pw : Q,
         float_pow (final_value / initial_value) (1 / years) = Ok pw ->
         Calculator.calculate_cagr float_pow initial_value final_value years
           = Ok (round2 ((pw - 1) * 100)))
      /\ (forall e : PyExc,
            Calculator.calculate_cagr float_pow initial_value final_value years
              = Raise e ->
            float_pow (final_value / initial_value) (1 / years) = Raise e)).
Proof.
  rewrite calculate_cagr_unfolded. split.
  - intros [Hi | Hy].
    + apply Qle_bool_iff in Hi. rewrite Hi. reflexivity.
    + apply Qle_bool_iff in Hy. rewrite Hy, orb_true_r. reflexivity.
  - intros Hi Hy _.
    assert (Bi : Qle_bool initial_value 0 = false).
    { apply not_true_iff_false. rewrite Qle_bool_iff. lra. }
    assert (By : Qle_bool years 0 = false).
    { apply not_true_iff_false. rewrite Qle_bool_iff. lra. }
    rewrite Bi, By. cbn [orb]. split.
    + intros pw E. rewrite E. reflexivity.
    + intros e. destruct (float_pow _ _) as [pw | e']; cbn [bind]; intro H.
      * discriminate H.
      * exact H.
Qed.

(** X3.  For a power with [1 ** y = 1], the growth rate of a value
    that did not change is [0.0], whatever the positive value and
    period. *)
Theorem cagr_no_growth (float_pow : Q -> Q -> PyResult Q) (value years : Q) :
  (forall b y, b == 1 -> exists v, float_pow b y = Ok v /\ v == 1) ->
  0 < value -> 0 < years ->
  Calculator.calculate_cagr float_pow value value years = Ok (0 # 100).
Proof.
  intros Hpow Hv Hy. rewrite calculate_cagr_unfolded.
  assert (Bi : Qle_bool value 0 = false).
  { apply not_true_iff_false. rewrite Qle_bool_iff. lra. }
  assert (By : Qle_bool years 0 = false).
  { apply not_true_iff_false. rewrite Qle_bool_iff. lra. }
  rewrite Bi, By. cbn [orb].
  assert (E1 : value / value == 1) by (field; lra).
  destruct (Hpow (value / value) (1 / years) E1) as (v & Ev & Hv1).
  rewrite Ev. cbn [bind].
  assert (K : (v - 1) * 100 == 0) by (rewrite Hv1; reflexivity).
  rewrite (round2_wd _ _ K). reflexivity.
Qed.

Lemma whole_pow_of_one (b y : Q) :
  b == 1 -> exists v, whole_pow b y = Ok v /\ v == 1.
Proof.
  intro E. exists (b ^ Qfloor y). split.
  - unfold whole_pow, py_pow.
    rewrite (Qeq_bool_false b 0); [reflexivity|].
    rewrite E. discriminate.
  - rewrite E. apply Qpower_1.
Qed.

Lemma cagr_no_growth_witness :
  Calculator.calculate_cagr whole_pow 100 100 5 = Ok (0 # 100).
Proof.
  apply (cagr_no_growth whole_pow 100 5 whole_pow_of_one); reflexivity.
Defined.

Lemma sum_values_from (d : list (string * Q)) (acc : Q) :
  fold_left (fun a kv => a + snd kv) d acc == acc + Calculator.sum_values d.
Proof.
  unfold Calculator.sum_values. revert acc.
  induction d as [|kv d IH]; intro acc; cbn [fold_left].
  - ring.
  - rewrite IH, (IH (0 + snd kv)). ring.
Qed.

Lemma sum_values_cons (kv : string * Q) (d : list (string * Q)) :
  Calculator.sum_values (kv :: d) == snd kv + Calculator.sum_values d.
Proof.
  unfold Calculator.sum_values at 1. cbn [fold_left].
  rewrite sum_values_from. ring.
Qed.

(** X4.  [calculate_investment_allocation] keeps the categories and
    their order, and the allocated amounts add up to
    [total * (sum of the percentages) / 100] within half a cent per
    category; so percentages that sum to 100 allocate the whole amount
    up to that rounding. *)
Theorem investment_allocation_sums (total_amount : Q)
  (percentages : list (string * Q)) :
  let allocation :=
    Calculator.calculate_investment_allocation total_amount percentages in
  map fst allocation = map fst percentages
  /\ Qabs (Calculator.sum_values allocation
           - total_amount * (Calculator.sum_values percentages / 100))
       <= (1 # 200) * inject_Z (Z.of_nat (length percentages))
  /\ (Calculator.sum_values percentages == 100 ->
      Qabs (Calculator.sum_values allocation - total_amount)
        <= (1 # 200) * inject_Z (Z.of_nat (length percentages))).
Proof.
  cbv zeta.
  assert (B : Qabs (Calculator.sum_values
                      (Calculator.calculate_investment_allocation
                         total_amount percentages)
                    - total_amount * (Calculator.sum_values percentages / 100))
              <= (1 # 200) * inject_Z (Z.of_nat (length percentages))).
  { induction percentages as [|kv d IH].
    - unfold Calculator.calculate_investment_allocation, Calculator.sum_values.
      cbn [map fold_left length]. change (inject_Z (Z.of_nat 0)) with 0.
      assert (Z0 : total_amount * (0 / 100) == 0) by field.
      rewrite Z0. discriminate.
    - unfold Calculator.calculate_investment_allocation in *.
      cbn [map length]. rewrite !sum_values_cons. cbn [fst snd].
      rewrite inject_nat_succ.
      apply Qabs_Qle_condition in IH. destruct IH as [L U].
      pose proof (round2_near (total_amount * (snd kv / 100))) as [L1 U1].
      set (rest := Calculator.sum_values (map _ d)) in *.
      set (sp := Calculator.sum_values d) in *.
      set (n := inject_Z (Z.of_nat (length d))) in *.
      set (r := round2 _) in *.
      assert (D : total_amount * ((snd kv + sp) / 100)
                  == total_amount * (snd kv / 100) + total_amount * (sp / 100))
        by field.
      rewrite D. apply Qabs_le_of_bounds; lra. }
  split; [|split].
  - unfold Calculator.calculate_investment_allocation. rewrite map_map.
    reflexivity.
  - exact B.
  - intro H100. rewrite H100 in B.
    assert (E : total_amount * (100 / 100) == total_amount) by field.
    rewrite E in B. exact B.
Qed.

Lemma sum_values_whole_cents (d : list (string * Q)) :
  (forall kv, In kv d -> whole_cents (snd kv)) ->
  whole_cents (Calculator.sum_values d).
Proof.
  induction d as [|kv d IH]; intro H.
  - exact whole_cents_0.
  - apply (whole_cents_wd (snd kv + Calculator.sum_values d)).
    + symmetry. apply sum_values_cons.
    + apply whole_cents_plus.
      * apply H. left. reflexivity.
      * apply IH. intros kv' I. apply H. right. exact I.
Qed.

(** X5.  In the result of [calculate_net_worth] the reported net worth
    is within 0.015 of reported assets minus reported liabilities, and
    equals it when every asset and liability is a whole number of
    cents. *)
Theorem net_worth_of_rounded_totals (assets liabilities : list (string * Q)) :
  let r := Calculator.calculate_net_worth assets liabilities in
  Qabs (Calculator.net_worth r
        - (Calculator.total_assets r - Calculator.total_liabilities r))
    <= 3 # 200
  /\ ((forall kv, In kv (assets ++ liabilities) -> whole_cents (snd kv)) ->
      Calculator.net_worth r
        == Calculator.total_assets r - Calculator.total_liabilities r).
Proof.
  cbv zeta. unfold Calculator.calculate_net_worth.
  cbn [Calculator.net_worth Calculator.total_assets Calculator.total_liabilities].
  set (a := Calculator.sum_values assets).
  set (l := Calculator.sum_values liabilities).
  split.
  - pose proof (round2_near a) as [? ?]. pose proof (round2_near l) as [? ?].
    pose proof (round2_near (a - l)) as [? ?].
    apply Qabs_le_of_bounds; lra.
  - intro H.
    assert (Ha : whole_cents a).
    { apply sum_values_whole_cents. intros kv I. apply H, in_or_app. left. exact I. }
    assert (Hl : whole_cents l).
    { apply sum_values_whole_cents. intros kv I. apply H, in_or_app. right. exact I. }
    rewrite (whole_cents_round2 a Ha), (whole_cents_round2 l Hl).
    apply whole_cents_round2, whole_cents_minus; assumption.
Qed.

(** ** More on the net-worth snapshot *)

Lemma by_user_idem (t : list Snapshot.Holding) (uid : Z) :
  Snapshot.by_user (Snapshot.by_user t uid) uid = Snapshot.by_user t uid.
Proof.
  unfold Snapshot.by_user. induction t as [|h t IH]; cbn.
  - reflexivity.
  - destruct (Snapshot.user_id h =? uid)%Z eqn:E; cbn.
    + rewrite E, IH. reflexivity.
    + exact IH.
Qed.

Lemma by_month_of_by_user (t : list Snapshot.Holding) (uid m : Z) :
  Snapshot.by_month (Snapshot.by_user t uid) uid m = Snapshot.by_month t uid m.
Proof.
  unfold Snapshot.by_month, Snapshot.by_user. induction t as [|h t IH]; cbn.
  - reflexivity.
  - destruct (Snapshot.user_id h =? uid)%Z eqn:E; cbn.
    + rewrite E, IH. reflexivity.
    + exact IH.
Qed.

(** X6.  A user's snapshot depends on that user's rows only: computing
    it on the tables with every other user's rows removed gives the same
    snapshot. *)
Theorem snapshot_reads_own_rows_only (db : Snapshot.Db) (uid m : Z) :
  Snapshot.compute_snapshot_data (own_rows db uid) uid m
    = Snapshot.compute_snapshot_data db uid m.
Proof.
  unfold Snapshot.compute_snapshot_data, Snapshot.monthly_income,
    Snapshot.monthly_expense, own_rows.
  cbn [Snapshot.stocks Snapshot.sips Snapshot.mutual_funds Snapshot.lump_sums
       Snapshot.loans Snapshot.credit_cards Snapshot.incomes Snapshot.expenses].
  rewrite !by_user_idem, !by_month_of_by_user. reflexivity.
Qed.

Lemma py_sum_from (f : Snapshot.Holding -> Q) (rows : list Snapshot.Holding)
  (acc : Q) :
  fold_left (fun a h => a + f h) rows acc == acc + Snapshot.py_sum f rows.
Proof.
  unfold Snapshot.py_sum. revert acc.
  induction rows as [|h rows IH]; intro acc; cbn [fold_left].
  - ring.
  - rewrite IH, (IH (0 + f h)). ring.
Qed.

Lemma py_sum_cons (f : Snapshot.Holding -> Q) (h : Snapshot.Holding)
  (rows : list Snapshot.Holding) :
  Snapshot.py_sum f (h :: rows) == f h + Snapshot.py_sum f rows.
Proof.
  unfold Snapshot.py_sum at 1. cbn [fold_left]. rewrite py_sum_from. ring.
Qed.

Lemma py_sum_app (f : Snapshot.Holding -> Q) (l1 l2 : list Snapshot.Holding) :
  Snapshot.py_sum f (l1 ++ l2) == Snapshot.py_sum f l1 + Snapshot.py_sum f l2.
Proof.
  induction l1 as [|h l1 IH]; cbn [app].
  - unfold Snapshot.py_sum at 2. cbn. ring.
  - rewrite !py_sum_cons, IH. ring.
Qed.

Lemma py_sum_nonneg (f : Snapshot.Holding -> Q) (rows : list Snapshot.Holding) :
  (forall h, In h rows -> 0 <= f h) -> 0 <= Snapshot.py_sum f rows.
Proof.
  induction rows as [|h rows IH]; intro H.
  - discriminate.
  - rewrite py_sum_cons.
    assert (0 <= f h) by (apply H; left; reflexivity).
    assert (0 <= Snapshot.py_sum f rows)
      by (apply IH; intros h' I; apply H; right; exact I).
    lra.
Qed.

Lemma py_sum_whole_cents (f : Snapshot.Holding -> Q)
  (rows : list Snapshot.Holding) :
  (forall h, In h rows -> whole_cents (f h)) ->
  whole_cents (Snapshot.py_sum f rows).
Proof.
  induction rows as [|h rows IH]; intro H.
  - exact whole_cents_0.
  - apply (whole_cents_wd (f h + Snapshot.py_sum f rows)).
    + symmetry. apply py_sum_cons.
    + apply whole_cents_plus.
      * apply H. left. reflexivity.
      * apply IH. intros h' I. apply H. right. exact I.
Qed.

(** X7.  In a month where expenses reach or exceed income, the snapshot
    stores savings of [0.00] and total assets equal to the rounded sum of
    the four investment categories: the deficit is not subtracted from
    assets or net worth. *)
Theorem snapshot_deficit_is_ignored (db : Snapshot.Db) (uid m : Z) :
  Snapshot.monthly_income db uid m <= Snapshot.monthly_expense db uid m ->
  let s := Snapshot.compute_snapshot_data db uid m in
  let value := fun h => Snapshot.or_zero (Snapshot.amount h) in
  let invested :=
    Snapshot.py_sum value (Snapshot.by_user (Snapshot.stocks db) uid)
    + Snapshot.py_sum value (Snapshot.by_user (Snapshot.sips db) uid)
    + Snapshot.py_sum value (Snapshot.by_user (Snapshot.mutual_funds db) uid)
    + Snapshot.py_sum value (Snapshot.by_user (Snapshot.lump_sums db) uid) in
  Snapshot.savings s = (0 # 100)
  /\ Snapshot.total_assets s = round2 invested
  /\ Snapshot.net_worth s
       = round2 (invested
                 - (Snapshot.py_sum value (Snapshot.by_user (Snapshot.loans db) uid)
                    + Snapshot.py_sum value
                        (Snapshot.by_user (Snapshot.credit_cards db) uid))).
Proof.
  intro H. cbv zeta. unfold Snapshot.compute_snapshot_data.
  cbn [Snapshot.savings Snapshot.total_assets Snapshot.net_worth].
  set (sv := Snapshot.monthly_income db uid m - Snapshot.monthly_expense db uid m).
  assert (E : Qmax sv 0 == 0) by (apply Q.max_r; unfold sv; lra).
  split; [|split].
  - rewrite (round2_wd _ _ E). reflexivity.
  - apply round2_wd. rewrite E. ring.
  - apply round2_wd. rewrite E. ring.
Qed.

Lemma snapshot_deficit_is_ignored_witness :
  let db := Snapshot.mkDb [Snapshot.mkHolding 1 0 (Some 5000)] [] [] []
              [Snapshot.mkHolding 1 0 (Some 1200)] []
              [Snapshot.mkHolding 1 7 (Some 1000)]
              [Snapshot.mkHolding 1 7 (Some 1500)] in
  Snapshot.savings (Snapshot.compute_snapshot_data db 1 7) = (0 # 100)
  /\ Snapshot.net_worth (Snapshot.compute_snapshot_data db 1 7) = (380000 # 100).
Proof.
  cbv zeta.
  match goal with
  | |- Snapshot.savings (Snapshot.compute_snapshot_data ?db 1 7) = _ /\ _ =>
      destruct (snapshot_deficit_is_ignored db 1 7) as (S & _ & N);
        [discriminate | split; [exact S | rewrite N; reflexivity]]
  end.
Defined.

Lemma or_zero_whole_cents (v : option Q) :
  (forall x, v = Some x -> whole_cents x) -> whole_cents (Snapshot.or_zero v).
Proof.
  intro H. destruct v as [x|]; cbn.
  - destruct (Qeq_bool x 0); [exact whole_cents_0 | apply H; reflexivity].
  - exact whole_cents_0.
Qed.

Lemma the_whole_cents (v : option Q) :
  (forall x, v = Some x -> whole_cents x) -> whole_cents (Snapshot.the v).
Proof.
  intro H. destruct v as [x|]; cbn.
  - apply H. reflexivity.
  - exact whole_cents_0.
Qed.

(** X8.  When every amount the snapshot reads is a whole number of
    cents, the three balance equations hold exactly between the stored
    fields. *)
Theorem snapshot_equations_exact_on_cents (db : Snapshot.Db) (uid m : Z) :
  (forall h x, In h (rows_read db uid m) -> Snapshot.amount h = Some x ->
               whole_cents x) ->
  let s := Snapshot.compute_snapshot_data db uid m in
  Snapshot.total_assets s
    == Snapshot.total_stocks_value s + Snapshot.total_sip_value s
       + Snapshot.total_mutual_fund_value s + Snapshot.total_lump_sum_value s
       + Snapshot.savings s
  /\ Snapshot.total_liabilities s
       == Snapshot.total_loan_outstanding s
          + Snapshot.total_credit_card_outstanding s
  /\ Snapshot.net_worth s
       == Snapshot.total_assets s - Snapshot.total_liabilities s.
Proof.
  intros H. cbv zeta. unfold rows_read in H.
  assert (Hsum : forall rows,
    (forall h, In h rows -> In h (rows_read db uid m)) ->
    whole_cents (Snapshot.py_sum (fun s => Snapshot.or_zero (Snapshot.amount s)) rows)).
  { intros rows Hin. apply py_sum_whole_cents. intros h I.
    apply or_zero_whole_cents. intros x E. apply (H h x); [|exact E].
    apply Hin, I. }
  unfold rows_read in Hsum.
  unfold Snapshot.compute_snapshot_data.
  cbn [Snapshot.total_stocks_value Snapshot.total_sip_value
       Snapshot.total_mutual_fund_value Snapshot.total_lump_sum_value
       Snapshot.savings Snapshot.total_assets Snapshot.total_loan_outstanding
       Snapshot.total_credit_card_outstanding Snapshot.total_liabilities
       Snapshot.net_worth].
  set (st := Snapshot.py_sum _ (Snapshot.by_user (Snapshot.stocks db) uid)).
  set (si := Snapshot.py_sum _ (Snapshot.by_user (Snapshot.sips db) uid)).
  set (mf := Snapshot.py_sum _ (Snapshot.by_user (Snapshot.mutual_funds db) uid)).
  set (ls := Snapshot.py_sum _ (Snapshot.by_user (Snapshot.lump_sums db) uid)).
  set (lo := Snapshot.py_sum _ (Snapshot.by_user (Snapshot.loans db) uid)).
  set (cc := Snapshot.py_sum _ (Snapshot.by_user (Snapshot.credit_cards db) uid)).
  assert (Wst : whole_cents st).
  { apply Hsum. intros h I. apply in_or_app. left. exact I. }
  assert (Wsi : whole_cents si).
  { apply Hsum. intros h I. do 1 (apply in_or_app; right).
    apply in_or_app. left. exact I. }
  assert (Wmf : whole_cents mf).
  { apply Hsum. intros h I. do 2 (apply in_or_app; right).
    apply in_or_app. left. exact I. }
  assert (Wls : whole_cents ls).
  { apply Hsum. intros h I. do 3 (apply in_or_app; right).
    apply in_or_app. left. exact I. }
  assert (Wlo : whole_cents lo).
  { apply Hsum. intros h I. do 4 (apply in_or_app; right).
    apply in_or_app. left. exact I. }
  assert (Wcc : whole_cents cc).
  { apply Hsum. intros h I. do 5 (apply in_or_app; right).
    apply in_or_app. left. exact I. }
  assert (Winc : whole_cents (Snapshot.monthly_income db uid m)).
  { unfold Snapshot.monthly_income.
    destruct (Snapshot.by_month (Snapshot.incomes db) uid m) as [|i rest] eqn:E.
    - exact whole_cents_0.
    - apply the_whole_cents. intros x Ex. apply (H i x); [|exact Ex].
      do 6 (apply in_or_app; right). apply in_or_app. left. left. reflexivity. }
  assert (Wexp : whole_cents (Snapshot.monthly_expense db uid m)).
  { rewrite monthly_expense_is_sum. apply py_sum_whole_cents. intros h I.
    apply the_whole_cents. intros x Ex. apply (H h x); [|exact Ex].
    do 7 (apply in_or_app; right). exact I. }
  set (sv := Qmax (Snapshot.monthly_income db uid m
                   - Snapshot.monthly_expense db uid m) 0).
  assert (Wsv : whole_cents sv)
    by (apply whole_cents_max0, whole_cents_minus; assumption).
  assert (Wa : whole_cents (st + si + mf + ls + sv))
    by (repeat apply whole_cents_plus; assumption).
  assert (Wl : whole_cents (lo + cc)) by (apply whole_cents_plus; assumption).
  assert (Wn : whole_cents (st + si + mf + ls + sv - (lo + cc)))
    by (apply whole_cents_minus; assumption).
  rewrite !whole_cents_round2 by assumption.
  repeat split; reflexivity.
Qed.

Lemma whole_cents_hundredths (z : Z) : whole_cents (z # 100).
Proof.
  exists z. rewrite (Qmake_Qdiv z 100). reflexivity.
Qed.

Lemma whole_cents_whole (z : Z) : whole_cents (inject_Z z).
Proof.
  exists (z * 100)%Z. rewrite inject_Z_mult. field.
Qed.

Lemma snapshot_equations_exact_on_cents_witness :
  let db := Snapshot.mkDb [Snapshot.mkHolding 1 0 (Some (1234567 # 100))]
              [Snapshot.mkHolding 1 0 None] [] []
              [Snapshot.mkHolding 1 0 (Some (99999 # 100))] []
              [Snapshot.mkHolding 1 7 (Some 1000)]
              [Snapshot.mkHolding 1 7 (Some (12345 # 100))] in
  let s := Snapshot.compute_snapshot_data db 1 7 in
  Snapshot.net_worth s
    == Snapshot.total_assets s - Snapshot.total_liabilities s.
Proof.
  cbv zeta.
  match goal with
  | |- Snapshot.net_worth (Snapshot.compute_snapshot_data ?db 1 7) == _ =>
      apply (snapshot_equations_exact_on_cents db 1 7)
  end.
  intros h x I E. cbn in I.
  repeat (destruct I as [I | I];
          [subst h; inversion E; subst x;
           first [apply whole_cents_hundredths | apply (whole_cents_whole 1000)]|]).
  destruct I.
Defined.

(** ** Recording income and expenses *)

Lemma by_month_app (t1 t2 : list Snapshot.Holding) (uid m : Z) :
  Snapshot.by_month (t1 ++ t2) uid m
    = Snapshot.by_month t1 uid m ++ Snapshot.by_month t2 uid m.
Proof. apply filter_app. Qed.

Lemma by_user_app (t1 t2 : list Snapshot.Holding) (uid : Z) :
  Snapshot.by_user (t1 ++ t2) uid
    = Snapshot.by_user t1 uid ++ Snapshot.by_user t2 uid.
Proof. apply filter_app. Qed.

Lemma by_month_single (h : Snapshot.Holding) (uid m : Z) :
  Snapshot.by_month [h] uid m
    = if (Snapshot.user_id h =? uid)%Z && (Snapshot.month h =? m)%Z
      then [h] else [].
Proof. reflexivity. Qed.

(** The snapshot is a function of the totals it reads. *)
Lemma snapshot_ext (db db' : Snapshot.Db) (uid m : Z) :
  Snapshot.by_user (Snapshot.stocks db') uid = Snapshot.by_user (Snapshot.stocks db) uid ->
  Snapshot.by_user (Snapshot.sips db') uid = Snapshot.by_user (Snapshot.sips db) uid ->
  Snapshot.by_user (Snapshot.mutual_funds db') uid
    = Snapshot.by_user (Snapshot.mutual_funds db) uid ->
  Snapshot.by_user (Snapshot.lump_sums db') uid
    = Snapshot.by_user (Snapshot.lump_sums db) uid ->
  Snapshot.by_user (Snapshot.loans db') uid = Snapshot.by_user (Snapshot.loans db) uid ->
  Snapshot.by_user (Snapshot.credit_cards db') uid
    = Snapshot.by_user (Snapshot.credit_cards db) uid ->
  Snapshot.monthly_income db' uid m = Snapshot.monthly_income db uid m ->
  Snapshot.monthly_expense db' uid m = Snapshot.monthly_expense db uid m ->
  Snapshot.compute_snapshot_data db' uid m = Snapshot.compute_snapshot_data db uid m.
Proof.
  intros E1 E2 E3 E4 E5 E6 E7 E8. unfold Snapshot.compute_snapshot_data.
  rewrite E1, E2, E3, E4, E5, E6, E7, E8. reflexivity.
Qed.

(** X9.  Recording an expense adds its amount to that user's total for
    the month, never increases the savings, total assets or net worth
    of that month's snapshot, leaves its liabilities alone, and changes
    no snapshot of another user or month. *)
Theorem expense_never_raises_net_worth (db : Snapshot.Db)
  (e : Ledger.ExpenseCreate) :
  0 <= Ledger.ec_amount e ->
  let uid := Ledger.ec_user_id e in
  let m := Ledger.ec_month e in
  let db' := Ledger.create_expense db e in
  let s := Snapshot.compute_snapshot_data db uid m in
  let s' := Snapshot.compute_snapshot_data db' uid m in
  Ledger.get_total_expenses_by_month db' uid m
    == Ledger.get_total_expenses_by_month db uid m + Ledger.ec_amount e
  /\ Snapshot.savings s' <= Snapshot.savings s
  /\ Snapshot.total_assets s' <= Snapshot.total_assets s
  /\ Snapshot.net_worth s' <= Snapshot.net_worth s
  /\ Snapshot.total_liabilities s' = Snapshot.total_liabilities s
  /\ (forall uid' m', (uid' <> uid \/ m' <> m) ->
      Snapshot.compute_snapshot_data db' uid' m'
        = Snapshot.compute_snapshot_data db uid' m').
Proof.
  intros Ha uid m db' s s'.
  assert (T : Ledger.get_total_expenses_by_month db' uid m
              == Ledger.get_total_expenses_by_month db uid m + Ledger.ec_amount e).
  { unfold Ledger.get_total_expenses_by_month, db', Ledger.create_expense.
    cbn [Snapshot.expenses]. rewrite by_month_app, by_month_single.
    cbn [Snapshot.user_id Snapshot.month]. fold uid. fold m.
    rewrite !Z.eqb_refl. cbn [andb]. rewrite py_sum_app.
    unfold Snapshot.py_sum at 2. cbn. ring. }
  assert (X : Snapshot.monthly_expense db' uid m
              == Snapshot.monthly_expense db uid m + Ledger.ec_amount e).
  { rewrite !monthly_expense_is_sum. exact T. }
  split; [exact T|].
  unfold s, s', Snapshot.compute_snapshot_data.
  cbn [Snapshot.savings Snapshot.total_assets Snapshot.net_worth
       Snapshot.total_liabilities].
  change (Snapshot.monthly_income db' uid m) with (Snapshot.monthly_income db uid m).
  change (Snapshot.stocks db') with (Snapshot.stocks db).
  change (Snapshot.sips db') with (Snapshot.sips db).
  change (Snapshot.mutual_funds db') with (Snapshot.mutual_funds db).
  change (Snapshot.lump_sums db') with (Snapshot.lump_sums db).
  change (Snapshot.loans db') with (Snapshot.loans db).
  change (Snapshot.credit_cards db') with (Snapshot.credit_cards db).
  set (inc := Snapshot.monthly_income db uid m).
  set (old := Snapshot.monthly_expense db uid m) in *.
  set (new := Snapshot.monthly_expense db' uid m) in *.
  assert (M : Qmax (inc - new) 0 <= Qmax (inc - old) 0).
  { apply Q.max_le_compat_r. lra. }
  split; [apply round2_mono, M|].
  split; [apply round2_mono; lra|].
  split; [apply round2_mono; lra|].
  split; [reflexivity|].
  intros uid' m' Hne. apply (snapshot_ext db db' uid' m'); try reflexivity.
  unfold Snapshot.monthly_expense, db', Ledger.create_expense.
  cbn [Snapshot.expenses]. rewrite by_month_app, by_month_single.
  cbn [Snapshot.user_id Snapshot.month]. fold uid. fold m.
  assert (B : (uid =? uid')%Z && (m =? m')%Z = false).
  { apply andb_false_iff. destruct Hne as [N | N]; [left | right];
      apply Z.eqb_neq; congruence. }
  rewrite B, app_nil_r. reflexivity.
Qed.

Lemma expense_never_raises_net_worth_witness :
  let db := Snapshot.mkDb [] [] [] [] [] []
              [Snapshot.mkHolding 1 7 (Some 1000)]
              [Snapshot.mkHolding 1 7 (Some 400)] in
  let e := Ledger.mkExpenseCreate 1 7 "Travel" 250 in
  Snapshot.net_worth (Snapshot.compute_snapshot_data (Ledger.create_expense db e) 1 7)
    <= Snapshot.net_worth (Snapshot.compute_snapshot_data db 1 7).
Proof.
  cbv zeta.
  match goal with
  | |- Snapshot.net_worth
         (Snapshot.compute_snapshot_data (Ledger.create_expense ?db ?e) _ _) <= _ =>
      destruct (expense_never_raises_net_worth db e) as (_ & _ & _ & N & _);
        [discriminate | exact N]
  end.
Defined.

(** X10.  The first income record of a user for a month is what the
    snapshot counts: after [create_income] on a month without one, the
    month's income is [salary + other_income], which a validated record
    makes non-negative and at least the salary. *)
Theorem first_income_record_is_counted (db : Snapshot.Db) (uid m : Z)
  (salary other_income : Q) (income : Ledger.IncomeCreate) :
  Ledger.IncomeCreate_validate uid m salary other_income = Ok income ->
  Snapshot.by_month (Snapshot.incomes db) uid m = [] ->
  let db' := Ledger.create_income db income in
  Snapshot.monthly_income db' uid m = salary + other_income
  /\ salary <= Snapshot.monthly_income db' uid m
  /\ 0 <= Snapshot.monthly_income db' uid m
  /\ Snapshot.savings (Snapshot.compute_snapshot_data db' uid m)
       = round2 (Qmax (salary + other_income
                       - Snapshot.monthly_expense db uid m) 0).
Proof.
  intros V Hnone db'. unfold Ledger.IncomeCreate_validate in V.
  destruct (Qle_bool 0 salary) eqn:Hs; [|discriminate V].
  destruct (Qle_bool 0 other_income) eqn:Ho; [|discriminate V].
  apply Qle_bool_iff in Hs. apply Qle_bool_iff in Ho.
  cbn [andb] in V. injection V as V. subst income.
  assert (I : Snapshot.monthly_income db' uid m = salary + other_income).
  { unfold Snapshot.monthly_income, db', Ledger.create_income.
    cbn [Snapshot.incomes Ledger.ic_user_id Ledger.ic_month Ledger.salary
         Ledger.other_income].
    rewrite by_month_app, Hnone, by_month_single.
    cbn [Snapshot.user_id Snapshot.month app]. rewrite !Z.eqb_refl. reflexivity. }
  split; [exact I|]. rewrite I.
  split; [lra|]. split; [lra|].
  unfold Snapshot.compute_snapshot_data. cbn [Snapshot.savings]. rewrite I.
  reflexivity.
Qed.

Lemma first_income_record_is_counted_witness :
  let db' := Ledger.create_income (Snapshot.mkDb [] [] [] [] [] [] [] [])
               (Ledger.mkIncomeCreate 1 7 75000 5000) in
  Snapshot.monthly_income db' 1 7 = 75000 + 5000.
Proof.
  cbv zeta.
  apply (first_income_record_is_counted
           (Snapshot.mkDb [] [] [] [] [] [] [] []) 1 7 75000 5000
           (Ledger.mkIncomeCreate 1 7 75000 5000)); reflexivity.
Defined.

(** X11.  Once a user has an income record for a month, recording
    another one for that month changes no snapshot at all: the snapshot
    reads the first record only (table rows taken in insertion
    order). *)
Theorem later_income_record_is_ignored (db : Snapshot.Db)
  (income : Ledger.IncomeCreate) :
  Snapshot.by_month (Snapshot.incomes db) (Ledger.ic_user_id income)
    (Ledger.ic_month income) <> [] ->
  forall uid m,
  Snapshot.compute_snapshot_data (Ledger.create_income db income) uid m
    = Snapshot.compute_snapshot_data db uid m.
Proof.
  intros Hsome uid m.
  apply (snapshot_ext db (Ledger.create_income db income) uid m);
    try reflexivity.
  unfold Snapshot.monthly_income, Ledger.create_income.
  cbn [Snapshot.incomes]. rewrite by_month_app, by_month_single.
  cbn [Snapshot.user_id Snapshot.month].
  destruct ((Ledger.ic_user_id income =? uid)%Z
            && (Ledger.ic_month income =? m)%Z) eqn:B.
  - apply andb_true_iff in B. destruct B as [B1 B2].
    apply Z.eqb_eq in B1. apply Z.eqb_eq in B2. subst uid m.
    destruct (Snapshot.by_month (Snapshot.incomes db) (Ledger.ic_user_id income)
                (Ledger.ic_month income)) as [|i rest].
    + exfalso. apply Hsome. reflexivity.
    + reflexivity.
  - rewrite app_nil_r. reflexivity.
Qed.

Lemma later_income_record_is_ignored_witness :
  let db := Snapshot.mkDb [] [] [] [] [] []
              [Snapshot.mkHolding 1 7 (Some 1000)] [] in
  Snapshot.compute_snapshot_data
    (Ledger.create_income db (Ledger.mkIncomeCreate 1 7 90000 0)) 1 7
    = Snapshot.compute_snapshot_data db 1 7.
Proof.
  cbv zeta.
  apply (later_income_record_is_ignored
           (Snapshot.mkDb [] [] [] [] [] []
              [Snapshot.mkHolding 1 7 (Some 1000)] [])
           (Ledger.mkIncomeCreate 1 7 90000 0)).
  discriminate.
Defined.

(** ** Loan rows and the SWP connector *)

Lemma update_loan_found_iff (db : list LoanTable.LoanRow) (loan_id : Z) (x : Q) :
  snd (LoanTable.update_loan_outstanding db loan_id x) = None
  <-> forall r, In r db -> LoanTable.id r <> loan_id.
Proof.
  induction db as [|row rest IH]; cbn [LoanTable.update_loan_outstanding].
  - split; [intros _ r [] | reflexivity].
  - destruct (Z.eqb_spec (LoanTable.id row) loan_id) as [E | N].
    + cbn [snd]. split; [discriminate|].
      intro H. exfalso. apply (H row); [left; reflexivity | exact E].
    + destruct (LoanTable.update_loan_outstanding rest loan_id x)
        as [rest' found] eqn:U.
      cbn [snd] in *. rewrite IH. split.
      * intros H r [I | I]; [subst r; exact N | apply H, I].
      * intros H r I. apply H. right. exact I.
Qed.

(** X12.  [update_loan_outstanding] returns no row exactly when no loan
    has the given id (the API then answers 404), and in that case the
    table is left as it was. *)
Theorem update_loan_unknown_id (db : list LoanTable.LoanRow) (loan_id : Z)
  (new_outstanding : Q) :
  (snd (LoanTable.update_loan_outstanding db loan_id new_outstanding) = None
   <-> forall r, In r db -> LoanTable.id r <> loan_id)
  /\ (snd (LoanTable.update_loan_outstanding db loan_id new_outstanding) = None ->
      fst (LoanTable.update_loan_outstanding db loan_id new_outstanding) = db).
Proof.
  split; [apply update_loan_found_iff|].
  induction db as [|row rest IH]; cbn [LoanTable.update_loan_outstanding].
  - reflexivity.
  - destruct (LoanTable.id row =? loan_id)%Z; [discriminate|].
    destruct (LoanTable.update_loan_outstanding rest loan_id new_outstanding)
      as [rest' found] eqn:U.
    cbn [fst snd] in *. intro H. rewrite (IH H). reflexivity.
Qed.

(** X13.  [update_loan_outstanding] keeps every row's id, owner,
    principal, rate, tenure and EMI (the EMI fixed at creation is never
    recomputed), leaves rows with another id untouched, and never turns
    an inactive loan active again, whatever amount is written. *)
Theorem update_loan_keeps_terms (db : list LoanTable.LoanRow) (loan_id : Z)
  (new_outstanding : Q) :
  Forall2
    (fun r r' =>
       LoanTable.id r' = LoanTable.id r
       /\ Crud.emi (LoanTable.loan r') = Crud.emi (LoanTable.loan r)
       /\ Crud.loan_principal_amount (LoanTable.loan r')
            = Crud.loan_principal_amount (LoanTable.loan r)
       /\ Crud.loan_interest_rate (LoanTable.loan r')
            = Crud.loan_interest_rate (LoanTable.loan r)
       /\ Crud.loan_tenure_months (LoanTable.loan r')
            = Crud.loan_tenure_months (LoanTable.loan r)
       /\ Crud.loan_user_id (LoanTable.loan r')
            = Crud.loan_user_id (LoanTable.loan r)
       /\ (LoanTable.id r <> loan_id -> r' = r)
       /\ (LoanTable.is_active r = false -> LoanTable.is_active r' = false))
    db (fst (LoanTable.update_loan_outstanding db loan_id new_outstanding)).
Proof.
  assert (Same : forall l : list LoanTable.LoanRow,
    Forall2
      (fun r r' =>
         LoanTable.id r' = LoanTable.id r
         /\ Crud.emi (LoanTable.loan r') = Crud.emi (LoanTable.loan r)
         /\ Crud.loan_principal_amount (LoanTable.loan r')
              = Crud.loan_principal_amount (LoanTable.loan r)
         /\ Crud.loan_interest_rate (LoanTable.loan r')
              = Crud.loan_interest_rate (LoanTable.loan r)
         /\ Crud.loan_tenure_months (LoanTable.loan r')
              = Crud.loan_tenure_months (LoanTable.loan r)
         /\ Crud.loan_user_id (LoanTable.loan r')
              = Crud.loan_user_id (LoanTable.loan r)
         /\ (LoanTable.id r <> loan_id -> r' = r)
         /\ (LoanTable.is_active r = false -> LoanTable.is_active r' = false))
      l l).
  { induction l as [|r l IHl]; constructor; [tauto | exact IHl]. }
  induction db as [|row rest IH]; cbn [LoanTable.update_loan_outstanding].
  - constructor.
  - destruct (Z.eqb_spec (LoanTable.id row) loan_id) as [E | N]; cbn [fst].
    + constructor; [|apply Same].
      cbn. repeat split; try reflexivity.
      * intro H. contradiction.
      * intro H. rewrite H. destruct (Qle_bool new_outstanding 0); reflexivity.
    + destruct (LoanTable.update_loan_outstanding rest loan_id new_outstanding)
        as [rest' found] eqn:U.
      cbn [fst] in *. constructor; [tauto | exact IH].
Qed.

Lemma swp_new_outstanding_max (o w : Q) :
  LoanTable.swp_new_outstanding o w == Qmax (o - w) 0.
Proof.
  unfold LoanTable.swp_new_outstanding, Qltb. cbv zeta.
  destruct (Qle_bool 0 (o - w)) eqn:B; cbn [negb].
  - apply Qle_bool_iff in B. symmetry. apply Q.max_l. exact B.
  - rewrite <- not_true_iff_false, Qle_bool_iff in B.
    symmetry. apply Q.max_r. lra.
Qed.

Lemma update_loan_first_match (db : list LoanTable.LoanRow)
  (l : LoanTable.LoanRow) (x : Q) :
  NoDup (map LoanTable.id db) -> In l db ->
  let l' := LoanTable.mkLoanRow (LoanTable.id l)
              (LoanTable.set_outstanding (LoanTable.loan l) x)
              (if Qle_bool x 0 then false else LoanTable.is_active l) in
  snd (LoanTable.update_loan_outstanding db (LoanTable.id l) x) = Some l'
  /\ In l' (fst (LoanTable.update_loan_outstanding db (LoanTable.id l) x)).
Proof.
  intros ND I. cbv zeta.
  induction db as [|row rest IH]; [destruct I|].
  cbn [LoanTable.update_loan_outstanding].
  cbn [map] in ND. inversion ND as [|? ? Hnotin ND']; subst.
  destruct I as [E | I].
  - subst row. rewrite Z.eqb_refl. cbn [fst snd].
    split; [reflexivity | left; reflexivity].
  - destruct (Z.eqb_spec (LoanTable.id row) (LoanTable.id l)) as [E | N].
    + exfalso. apply Hnotin. rewrite E. apply in_map. exact I.
    + destruct (LoanTable.update_loan_outstanding rest (LoanTable.id l) x)
        as [rest' found] eqn:U.
      cbn [fst snd] in *. destruct (IH ND' I) as [F G].
      split; [exact F | right; exact G].
Qed.

(** X14.  "Apply This Month" on a loan of a table with unique ids
    writes [max(outstanding - withdrawal, 0)] to that loan: the stored
    amount is never negative, the EMI is kept, the loan is closed when
    the withdrawal covers the outstanding amount and keeps its status
    otherwise. *)
Theorem apply_swp_clamps_and_closes (db : list LoanTable.LoanRow)
  (l : LoanTable.LoanRow) (monthly_withdrawal : Q) :
  NoDup (map LoanTable.id db) -> In l db ->
  exists l',
    snd (LoanTable.apply_swp db l monthly_withdrawal) = Some l'
    /\ In l' (fst (LoanTable.apply_swp db l monthly_withdrawal))
    /\ LoanTable.id l' = LoanTable.id l
    /\ Crud.outstanding_amount (LoanTable.loan l')
         == Qmax (Crud.outstanding_amount (LoanTable.loan l) - monthly_withdrawal) 0
    /\ 0 <= Crud.outstanding_amount (LoanTable.loan l')
    /\ Crud.emi (LoanTable.loan l') = Crud.emi (LoanTable.loan l)
    /\ (Crud.outstanding_amount (LoanTable.loan l) <= monthly_withdrawal ->
        LoanTable.is_active l' = false)
    /\ (monthly_withdrawal < Crud.outstanding_amount (LoanTable.loan l) ->
        LoanTable.is_active l' = LoanTable.is_active l).
Proof.
  intros ND I. unfold LoanTable.apply_swp.
  set (o := Crud.outstanding_amount (LoanTable.loan l)).
  set (x := LoanTable.swp_new_outstanding o monthly_withdrawal).
  destruct (update_loan_first_match db l x ND I) as [F G]. cbv zeta in F, G.
  eexists. split; [exact F|]. split; [exact G|].
  cbn [LoanTable.id LoanTable.loan LoanTable.is_active LoanTable.set_outstanding
       Crud.outstanding_amount Crud.emi].
  pose proof (swp_new_outstanding_max o monthly_withdrawal) as M. fold x in M.
  pose proof (Q.le_max_r (o - monthly_withdrawal) 0) as P.
  split; [reflexivity|]. split; [exact M|]. split; [rewrite M; exact P|].
  split; [reflexivity|]. split.
  - intro Hle.
    assert (B : Qle_bool x 0 = true).
    { apply Qle_bool_iff. rewrite M. rewrite Q.max_r by lra. lra. }
    rewrite B. reflexivity.
  - intro Hlt.
    assert (B : Qle_bool x 0 = false).
    { apply not_true_iff_false. rewrite Qle_bool_iff, M.
      rewrite Q.max_l by lra. lra. }
    rewrite B. reflexivity.
Qed.

Lemma apply_swp_clamps_and_closes_witness :
  let l := LoanTable.mkLoanRow 7 (Crud.mkLoan 1 1200 12 12 (10662 # 100) 500) true in
  exists l',
    snd (LoanTable.apply_swp [l] l 800) = Some l'
    /\ In l' (fst (LoanTable.apply_swp [l] l 800))
    /\ LoanTable.id l' = LoanTable.id l
    /\ Crud.outstanding_amount (LoanTable.loan l')
         == Qmax (Crud.outstanding_amount (LoanTable.loan l) - 800) 0
    /\ 0 <= Crud.outstanding_amount (LoanTable.loan l')
    /\ Crud.emi (LoanTable.loan l') = Crud.emi (LoanTable.loan l)
    /\ (Crud.outstanding_amount (LoanTable.loan l) <= 800 ->
        LoanTable.is_active l' = false)
    /\ (800 < Crud.outstanding_amount (LoanTable.loan l) ->
        LoanTable.is_active l' = LoanTable.is_active l).
Proof.
  cbv zeta.
  apply (apply_swp_clamps_and_closes
           [LoanTable.mkLoanRow 7 (Crud.mkLoan 1 1200 12 12 (10662 # 100) 500) true]
           (LoanTable.mkLoanRow 7 (Crud.mkLoan 1 1200 12 12 (10662 # 100) 500) true)
           800).
  - constructor; [intros [] | constructor].
  - left. reflexivity.
Defined.

(** X15.  Applying the same non-negative withdrawal month after month
    to a non-negative outstanding amount leaves
    [max(outstanding - k * withdrawal, 0)] after [k] months: the amount
    reaches zero and stays there. *)
Theorem swp_repeated_application (o w : Q) (k : nat) :
  0 <= o -> 0 <= w ->
  Nat.iter k (fun x => LoanTable.swp_new_outstanding x w) o
    == Qmax (o - inject_Z (Z.of_nat k) * w) 0.
Proof.
  intros Ho Hw. induction k as [|k IH].
  - change (Nat.iter 0 (fun x => LoanTable.swp_new_outstanding x w) o) with o.
    change (inject_Z (Z.of_nat 0)) with 0.
    rewrite Q.max_l by lra. ring.
  - rewrite Nat.iter_succ, swp_new_outstanding_max, IH, inject_nat_succ.
    set (n := inject_Z (Z.of_nat k)) in *.
    destruct (Qlt_le_dec (o - n * w) 0) as [Neg | Pos].
    + rewrite (Q.max_r (o - n * w) 0) by lra.
      rewrite (Q.max_r (0 - w) 0) by lra.
      rewrite Q.max_r by lra. reflexivity.
    + rewrite (Q.max_l (o - n * w) 0) by lra.
      assert (E : o - (n + 1) * w == o - n * w - w) by ring.
      rewrite E. reflexivity.
Qed.

Lemma swp_repeated_application_witness :
  Nat.iter 3 (fun x => LoanTable.swp_new_outstanding x 400) 1000
    == Qmax (1000 - inject_Z (Z.of_nat 3) * 400) 0.
Proof.
  apply (swp_repeated_application 1000 400 3); discriminate.
Defined.

(** ** The fallback risk assessment *)

Lemma savings_rate_value (income expenses : Q) :
  (if Qgtb income 0 then
     q <- py_div (income - expenses) income ;; Ok (q * 100)
   else Ok 0)
  = Ok (if Qgtb income 0 then (income - expenses) / income * 100 else 0).
Proof.
  destruct (Qgtb income 0) eqn:G; [|reflexivity].
  apply Qgtb_true in G.
  rewrite py_div_nonzero; [reflexivity|].
  apply Qnot_eq_sym, Qlt_not_eq, G.
Qed.

Lemma savings_rate_above (income expenses c : Q) :
  0 < income ->
  (c < (income - expenses) / income * 100
   <-> expenses * 100 < income * (100 - c)).
Proof.
  intro Hi.
  assert (E : (income - expenses) / income * 100
              == (income - expenses) * 100 / income) by (field; lra).
  rewrite E. split; intro H.
  - apply (Qmult_lt_r _ _ income Hi) in H.
    assert (K : (income - expenses) * 100 / income * income
                == (income - expenses) * 100) by (field; lra).
    rewrite K in H. lra.
  - apply (Qmult_lt_r _ _ income Hi).
    assert (K : (income - expenses) * 100 / income * income
                == (income - expenses) * 100) by (field; lra).
    rewrite K. lra.
Qed.

Lemma savings_rate_below (income expenses c : Q) :
  0 < income ->
  ((income - expenses) / income * 100 < c
   <-> income * (100 - c) < expenses * 100).
Proof.
  intro Hi.
  assert (E : (income - expenses) / income * 100
              == (income - expenses) * 100 / income) by (field; lra).
  rewrite E. split; intro H.
  - apply (Qmult_lt_r _ _ income Hi) in H.
    assert (K : (income - expenses) * 100 / income * income
                == (income - expenses) * 100) by (field; lra).
    rewrite K in H. lra.
  - apply (Qmult_lt_r _ _ income Hi).
    assert (K : (income - expenses) * 100 / income * income
                == (income - expenses) * 100) by (field; lra).
    rewrite K. lra.
Qed.

(** X16.  The fallback risk assessment never fails, also for a zero or
    negative income, and recommends one of High, Low and Medium; High
    exactly for an investor under 30 with a positive income of which
    less than 70% is spent and a stated appetite of High. *)
Theorem risk_assessment_high_iff (age : Z) (income expenses : Q)
  (risk_appetite : string) :
  exists r,
    RiskAnalysisAgent._fallback_risk_assessment age income expenses risk_appetite
      = Ok r
    /\ RiskAnalysisAgent.investable r = income - expenses
    /\ (RiskAnalysisAgent.recommended_risk_level r = "High"%string
        \/ RiskAnalysisAgent.recommended_risk_level r = "Low"%string
        \/ RiskAnalysisAgent.recommended_risk_level r = "Medium"%string)
    /\ (RiskAnalysisAgent.recommended_risk_level r = "High"%string
        <-> (age < 30)%Z /\ 0 < income /\ expenses * 100 < income * 70
            /\ risk_appetite = "High"%string).
Proof.
  unfold RiskAnalysisAgent._fallback_risk_assessment. cbv zeta.
  rewrite savings_rate_value. cbn [bind].
  set (sr := if Qgtb income 0 then (income - expenses) / income * 100 else 0).
  assert (Hsr : Qgtb sr 30 = true <-> 0 < income /\ expenses * 100 < income * 70).
  { unfold sr. rewrite Qgtb_true. destruct (Qgtb income 0) eqn:G.
    - apply Qgtb_true in G. rewrite (savings_rate_above income expenses 30 G).
      split; [intro H; split; [exact G | lra] | intros [_ H]; lra].
    - apply Qgtb_false in G. split; [intro H; exfalso; lra | intros [H _]; lra]. }
  destruct ((age <? 30)%Z && Qgtb sr 30 && String.eqb risk_appetite "High") eqn:B.
  - eexists. split; [reflexivity|]. cbn. split; [reflexivity|].
    split; [left; reflexivity|]. split; [intros _ | reflexivity].
    apply andb_true_iff in B. destruct B as [B B3].
    apply andb_true_iff in B. destruct B as [B1 B2].
    apply Z.ltb_lt in B1. apply Hsr in B2. apply String.eqb_eq in B3. tauto.
  - assert (NotHigh : ~ ((age < 30)%Z /\ 0 < income
                         /\ expenses * 100 < income * 70
                         /\ risk_appetite = "High"%string)).
    { intros (A1 & A2 & A3 & A4).
      apply Z.ltb_lt in A1. apply String.eqb_eq in A4.
      assert (A23 : Qgtb sr 30 = true) by (apply Hsr; split; assumption).
      rewrite A1, A23, A4 in B. discriminate B. }
    destruct ((50 <? age)%Z || Qltb sr 20).
    + eexists. split; [reflexivity|]. cbn. split; [reflexivity|].
      split; [right; left; reflexivity|].
      split; [discriminate | intro H; destruct (NotHigh H)].
    + eexists. split; [reflexivity|]. cbn. split; [reflexivity|].
      split; [right; right; reflexivity|].
      split; [discriminate | intro H; destruct (NotHigh H)].
Qed.

(** X17.  The fallback recommends Low for every investor over 50, for
    every investor without a positive income, and for every investor
    who spends more than 80% of a positive income, whatever the stated
    appetite. *)
Theorem risk_assessment_low_cases (age : Z) (income expenses : Q)
  (risk_appetite : string) :
  (50 < age)%Z \/ income <= 0 \/ income * 80 < expenses * 100 ->
  exists r,
    RiskAnalysisAgent._fallback_risk_assessment age income expenses risk_appetite
      = Ok r
    /\ RiskAnalysisAgent.recommended_risk_level r = "Low"%string.
Proof.
  intro H. unfold RiskAnalysisAgent._fallback_risk_assessment. cbv zeta.
  rewrite savings_rate_value. cbn [bind].
  set (sr := if Qgtb income 0 then (income - expenses) / income * 100 else 0).
  assert (First : (age <? 30)%Z && Qgtb sr 30 = false).
  { apply andb_false_iff. destruct H as [H | [H | H]].
    - left. apply Z.ltb_ge. lia.
    - right. unfold sr. apply Qgtb_false in H. rewrite H. reflexivity.
    - right. apply Qgtb_false. unfold sr.
      destruct (Qgtb income 0) eqn:G; [|discriminate].
      apply Qgtb_true in G.
      destruct (Qlt_le_dec 30 ((income - expenses) / income * 100)) as [C | C];
        [|exact C].
      apply (savings_rate_above income expenses 30 G) in C. lra. }
  assert (Second : (50 <? age)%Z || Qltb sr 20 = true).
  { apply orb_true_iff. destruct H as [H | [H | H]].
    - left. apply Z.ltb_lt, H.
    - right. unfold sr. apply Qgtb_false in H. rewrite H. reflexivity.
    - right. unfold Qltb. apply negb_true_iff, not_true_iff_false.
      rewrite Qle_bool_iff. unfold sr.
      destruct (Qgtb income 0) eqn:G; [|lra].
      apply Qgtb_true in G. apply Qlt_not_le.
      apply (savings_rate_below income expenses 20 G). lra. }
  rewrite First. cbn [andb]. rewrite Second.
  eexists. split; reflexivity.
Qed.

Lemma risk_assessment_low_cases_witness :
  exists r,
    RiskAnalysisAgent._fallback_risk_assessment 60 100000 75000 "Medium" = Ok r
    /\ RiskAnalysisAgent.recommended_risk_level r = "Low"%string.
Proof.
  apply (risk_assessment_low_cases 60 100000 75000 "Medium").
  left. reflexivity.
Defined.

(** ** The rule-based portfolio allocation *)

(** X18.  For every risk level string, known or not, the recommended
    allocation lists the same six categories in the same order with
    percentages between 0 and 40 that sum to 100; any string other than
    "Low" and "High" gets the Medium table. *)
Theorem allocation_percentages_sum_to_100 (risk_level : string) :
  let table :=
    PortfolioOptimizer.allocations_get
      (PortfolioOptimizer.risk_map_get risk_level) in
  map fst table
    = ["SIP"; "MutualFunds"; "Stocks"; "FD"; "Savings"; "Insurance"]%string
  /\ fold_left Z.add (map snd table) 0%Z = 100%Z
  /\ Forall (fun kv => (0 <= snd kv <= 40)%Z) table
  /\ (risk_level <> "Low"%string -> risk_level <> "High"%string ->
      table = PortfolioOptimizer.allocation_medium).
Proof.
  cbv zeta. unfold PortfolioOptimizer.risk_map_get.
  cbn [PortfolioOptimizer.dict_get].
  destruct (String.eqb_spec "Low" risk_level) as [E1 | N1].
  - repeat split; try reflexivity.
    + repeat constructor; cbn; lia.
    + intros H _. exfalso. apply H. symmetry. exact E1.
  - destruct (String.eqb_spec "Medium" risk_level) as [E2 | N2].
    + repeat split; try reflexivity. repeat constructor; cbn; lia.
    + destruct (String.eqb_spec "High" risk_level) as [E3 | N3].
      * repeat split; try reflexivity.
        -- repeat constructor; cbn; lia.
        -- intros _ H. exfalso. apply H. symmetry. exact E3.
      * repeat split; try reflexivity. repeat constructor; cbn; lia.
Qed.

(** The dict returned by [get_optimal_allocation] has exactly the
    keys recommended_allocation, total_amount, risk_level and method;
    it has no entry "allocation_percentages" or "allocation_amounts",
    the two keys the investment page subscripts on it. *)
Theorem optimal_allocation_keys (amount : Q) (risk_level : string) :
  let result := PortfolioOptimizer.get_optimal_allocation amount risk_level in
  map fst result
    = ["recommended_allocation"; "total_amount"; "risk_level"; "method"]%string
  /\ PortfolioOptimizer.dict_get "allocation_percentages" result = None
  /\ PortfolioOptimizer.dict_get "allocation_amounts" result = None
  /\ PortfolioOptimizer.dict_get "total_amount" result
       = Some (PortfolioOptimizer.VFloat amount)
  /\ PortfolioOptimizer.dict_get "method" result
       = Some (PortfolioOptimizer.VStr "rule_based").
Proof.
  cbv zeta. repeat split; reflexivity.
Qed.

(** ** The untrained return predictor *)

Lemma fallback_prediction_by_risk (amount : Q) (duration_months : Z)
  (risk asset : Q) :
  InvestmentReturnPredictor._fallback_prediction
    [ ("investment_amount"%string, amount);
      ("duration_months"%string, inject_Z duration_months);
      ("risk_level"%string, risk);
      ("market_trend"%string, 0);
      ("asset_type"%string, asset);
      ("historical_return"%string, 10);
      ("volatility"%string, 15);
      ("expense_ratio"%string, 3 # 2);
      ("aum"%string, 1000);
      ("fund_age_years"%string, 5) ]
  = round2 ((if Qeq_bool risk 0 then 13 # 2
             else if Qeq_bool risk 1 then 10
             else if Qeq_bool risk 2 then 14 else 10) + 0 * 2).
Proof. reflexivity. Qed.

(** X19.  [predict_investment_return] never consults a trained model:
    whenever it returns, the predicted annual return is 6.5 for "Low",
    14.0 for "High" and 10.0 for any other risk level, and the whole
    result is the same for every asset type. *)
Theorem predicted_return_depends_on_risk_only
  (float_pow : Q -> Q -> PyResult Q) (amount : Q) (duration_months : Z)
  (risk_level asset_type : string) (p : InvestmentReturnPredictor.Prediction) :
  InvestmentReturnPredictor.predict_investment_return float_pow amount
    duration_months risk_level asset_type = Ok p ->
  InvestmentReturnPredictor.predicted_annual_return p
    = (if String.eqb risk_level "Low" then 650 # 100
       else if String.eqb risk_level "High" then 1400 # 100
       else 1000 # 100)
  /\ forall asset_type',
     InvestmentReturnPredictor.predict_investment_return float_pow amount
       duration_months risk_level asset_type' = Ok p.
Proof.
  unfold InvestmentReturnPredictor.predict_investment_return. cbv zeta.
  rewrite fallback_prediction_by_risk.
  cbn [PortfolioOptimizer.dict_get].
  rewrite (String.eqb_sym risk_level "Low"), (String.eqb_sym risk_level "High").
  set (ret := round2 _).
  intro H. split.
  - destruct (float_pow (1 + ret / 100) (inject_Z duration_months / 12))
      as [pw | e]; [|discriminate H].
    cbn [bind] in H. injection H as H. subst p.
    cbn [InvestmentReturnPredictor.predicted_annual_return]. unfold ret.
    destruct (String.eqb "Low" risk_level) eqn:B1; [reflexivity|].
    destruct (String.eqb "Medium" risk_level) eqn:B2.
    + apply String.eqb_eq in B2. subst risk_level. reflexivity.
    + destruct (String.eqb "High" risk_level); reflexivity.
  - intro asset'. rewrite fallback_prediction_by_risk.
    fold ret. exact H.
Qed.

Lemma predicted_return_depends_on_risk_only_witness :
  InvestmentReturnPredictor.predicted_annual_return
    (InvestmentReturnPredictor.mkPrediction 100000 12 "High" (1400 # 100)
       (11400000 # 100) (1400000 # 100))
  = (if String.eqb "High" "Low" then 650 # 100
     else if String.eqb "High" "High" then 1400 # 100
     else 1000 # 100)
  /\ forall asset_type',
     InvestmentReturnPredictor.predict_investment_return whole_pow 100000 12
       "High" asset_type'
     = Ok (InvestmentReturnPredictor.mkPrediction 100000 12 "High" (1400 # 100)
             (11400000 # 100) (1400000 # 100)).
Proof.
  apply (predicted_return_depends_on_risk_only whole_pow 100000 12 "High" "Equity").
  reflexivity.
Defined.

(** ** More on the rule-based anomaly detection *)

Module AnomalyMore.

Import ExpenseAnomalyDetector.
Local Open Scope R_scope.

Lemma squares_from (m : R) (s : list (Z * R)) (acc : R) :
  acc <= fold_left (fun a kv => a + (snd kv - m) * (snd kv - m)) s acc.
Proof.
  revert acc. induction s as [|kv s IH]; intro acc; cbn [fold_left].
  - lra.
  - specialize (IH (acc + (snd kv - m) * (snd kv - m))).
    pose proof (Rle_0_sqr (snd kv - m)) as P. unfold Rsqr in P. lra.
Qed.

(** The sum of squared deviations dominates each squared deviation. *)
Lemma squares_dominate (m : R) (s : list (Z * R)) (acc : R) (k : Z) (x : R) :
  In (k, x) s ->
  acc + (x - m) * (x - m)
    <= fold_left (fun a kv => a + (snd kv - m) * (snd kv - m)) s acc.
Proof.
  revert acc. induction s as [|kv s IH]; intros acc I; [destruct I|].
  cbn [fold_left]. destruct I as [E | I].
  - subst kv. cbn [snd]. apply squares_from.
  - specialize (IH (acc + (snd kv - m) * (snd kv - m)) I).
    pose proof (Rle_0_sqr (snd kv - m)) as P. unfold Rsqr in P. lra.
Qed.

Lemma half_le_sqrt (d v : R) : d * d <= 4 * v -> d <= 2 * sqrt v.
Proof.
  intro H. destruct (Rle_dec d 0) as [Neg | Pos].
  - pose proof (sqrt_pos v). lra.
  - assert (Hd : 0 <= d / 2) by lra.
    assert (S : sqrt (d / 2 * (d / 2)) <= sqrt v).
    { apply sqrt_le_1_alt. nra. }
    rewrite (sqrt_square (d / 2) Hd) in S. lra.
Qed.

(** With at most five values no value exceeds the mean by more than
    two sample deviations. *)
Lemma short_series_below_threshold (s : list (Z * R)) (k : Z) (x : R) :
  (2 <= length s <= 5)%nat -> In (k, x) s ->
  x <= series_mean s + 2 * series_std s.
Proof.
  intros [Lo Hi] I. unfold series_std. cbv zeta.
  set (m := series_mean s).
  pose proof (squares_dominate m s 0 k x I) as D.
  set (ss := fold_left _ s 0) in *.
  assert (N1 : 1 <= INR (length s) - 1).
  { apply le_INR in Lo. simpl in Lo. lra. }
  assert (N4 : INR (length s) - 1 <= 4).
  { apply le_INR in Hi. simpl in Hi. lra. }
  set (n1 := INR (length s) - 1) in *.
  assert (P : 0 <= (x - m) * (x - m)) by (apply Rle_0_sqr).
  assert (SSpos : 0 <= ss) by lra.
  assert (Q : (x - m) * (x - m) <= 4 * (ss / n1)).
  { assert (E : 4 * (ss / n1) = ss * (4 / n1)) by (field; lra).
    rewrite E.
    assert (F : 1 <= 4 / n1).
    { apply (Rmult_le_reg_r n1); [lra|].
      replace (4 / n1 * n1) with 4 by (field; lra). lra. }
    nra. }
  pose proof (half_le_sqrt (x - m) (ss / n1) Q). lra.
Qed.

(** X20.  With five monthly totals or fewer the rule-based detector
    reports nothing, whatever the amounts: no value of so short a series
    can exceed its mean by two sample deviations. *)
Theorem short_history_never_flagged (df : DataFrame) :
  (length (monthly_totals df) <= 5)%nat ->
  _rule_based_detection df = [].
Proof.
  intro H. unfold _rule_based_detection.
  destruct (length (monthly_totals df) <? 3)%nat eqn:B; [reflexivity|].
  apply Nat.ltb_ge in B.
  apply AnomalyFacts.scan_months_none. intros m total I.
  apply (short_series_below_threshold (monthly_totals df) m total); [lia | exact I].
Qed.

Lemma short_history_never_flagged_witness :
  _rule_based_detection spike_after_four = [].
Proof.
  apply (short_history_never_flagged spike_after_four).
  rewrite AnomalyFacts.spike_after_four_totals. cbn [length]. lia.
Defined.

Lemma zero_deviation_all_equal (s : list (Z * R)) (k : Z) (x : R) :
  (2 <= length s)%nat -> In (k, x) s -> series_std s = 0 -> x = series_mean s.
Proof.
  intros Lo I Z0. unfold series_std in Z0. cbv zeta in Z0.
  set (m := series_mean s) in *.
  pose proof (squares_dominate m s 0 k x I) as D.
  set (ss := fold_left _ s 0) in *.
  assert (N1 : 1 <= INR (length s) - 1).
  { apply le_INR in Lo. simpl in Lo. lra. }
  set (n1 := INR (length s) - 1) in *.
  assert (P : 0 <= (x - m) * (x - m)) by (apply Rle_0_sqr).
  assert (V : 0 <= ss / n1).
  { apply Rmult_le_pos; [lra|]. apply Rlt_le, Rinv_0_lt_compat. lra. }
  apply (sqrt_eq_0 _ V) in Z0.
  assert (SS0 : ss = 0).
  { replace ss with (ss / n1 * n1) by (field; lra). rewrite Z0. ring. }
  assert (Sq : (x - m) * (x - m) = 0) by lra.
  apply Rmult_integral in Sq. lra.
Qed.

(** X21.  Every month the rule-based detector reports has a total
    strictly above the mean, the deviation of the totals is positive,
    and the reported deviation exceeds 2. *)
Theorem reported_deviation_exceeds_two (df : DataFrame) (a : Anomaly) :
  In a (_rule_based_detection df) ->
  let totals := monthly_totals df in
  series_mean totals < total_expense a
  /\ 0 < series_std totals
  /\ 2 < deviation a.
Proof.
  intro I. cbv zeta. unfold _rule_based_detection in I.
  destruct (length (monthly_totals df) <? 3)%nat eqn:B; [destruct I|].
  apply Nat.ltb_ge in B.
  apply AnomalyFacts.scan_months_spec in I.
  destruct I as (m & total & Im & G & Ea). subst a.
  cbn [total_expense deviation].
  set (mean := series_mean (monthly_totals df)) in *.
  set (std := series_std (monthly_totals df)) in *.
  assert (S0 : 0 <= std) by (apply sqrt_pos).
  assert (Spos : 0 < std).
  { destruct (Req_dec std 0) as [Z0 | NZ]; [|lra].
    exfalso.
    pose proof (zero_deviation_all_equal (monthly_totals df) m total
                  ltac:(lia) Im Z0) as E.
    fold mean in E. lra. }
  split; [lra|]. split; [exact Spos|].
  apply (Rmult_lt_reg_r std); [exact Spos|].
  replace ((total - mean) / std * std) with (total - mean) by (field; lra).
  lra.
Qed.

Lemma spike_after_five_flagged :
  exists a, In a (_rule_based_detection spike_after_five)
            /\ anomaly_month a = 6%Z.
Proof.
  eexists. split.
  - unfold _rule_based_detection.
    rewrite AnomalyFacts.spike_after_five_totals at 1.
    cbn [length Nat.ltb Nat.leb].
    apply AnomalyFacts.scan_months_spec. exists 6%Z, 50000.
    split; [|split; [exact AnomalyFacts.spike_after_five_threshold | reflexivity]].
    rewrite AnomalyFacts.spike_after_five_totals. cbn [In]. tauto.
  - reflexivity.
Qed.

Lemma reported_deviation_exceeds_two_witness :
  exists a, In a (_rule_based_detection spike_after_five) /\ 2 < deviation a.
Proof.
  destruct spike_after_five_flagged as (a & Ia & _).
  exists a. split; [exact Ia|].
  apply (reported_deviation_exceeds_two spike_after_five a Ia).
Defined.

Lemma scan_months_keys_forall (P : Z -> Prop) (df : DataFrame)
  (mean std thr : R) (items : list (Z * R)) :
  Forall P (keys items) ->
  Forall P (map anomaly_month (scan_months df mean std thr items)).
Proof.
  induction items as [|[m total] rest IH]; intro H; cbn [scan_months].
  - constructor.
  - cbn in H. inversion H as [|? ? Hm Hrest]; subst.
    destruct (Rlt_dec thr total); cbn [map anomaly_month].
    + constructor; [exact Hm | apply IH, Hrest].
    + apply IH, Hrest.
Qed.

Lemma scan_months_sorted (df : DataFrame) (mean std thr : R)
  (items : list (Z * R)) :
  StronglySorted Z.lt (keys items) ->
  StronglySorted Z.lt (map anomaly_month (scan_months df mean std thr items)).
Proof.
  induction items as [|[m total] rest IH]; intro H; cbn [scan_months].
  - constructor.
  - cbn in H. inversion H as [|? ? Hs Hall]; subst.
    destruct (Rlt_dec thr total); cbn [map anomaly_month].
    + constructor; [apply IH, Hs|].
      apply scan_months_keys_forall, Hall.
    + apply IH, Hs.
Qed.

(** X22.  The rule-based detector reports months in strictly
    increasing order, so no month is reported twice, however the
    expense rows are ordered. *)
Theorem reported_months_increase (df : DataFrame) :
  StronglySorted Z.lt (map anomaly_month (_rule_based_detection df))
  /\ NoDup (map anomaly_month (_rule_based_detection df)).
Proof.
  assert (S : StronglySorted Z.lt
                (map anomaly_month (_rule_based_detection df))).
  { unfold _rule_based_detection.
    destruct (length (monthly_totals df) <? 3)%nat; [constructor|].
    apply scan_months_sorted, AnomalyFacts.monthly_totals_sorted. }
  split; [exact S|].
  induction S as [|x l Hs IH Hall]; constructor; [|exact IH].
  intro I. rewrite Forall_forall in Hall. specialize (Hall x I). lia.
Qed.

(** Sums over grouped series. *)
Lemma series_total_from {K : Type} (s : list (K * R)) (acc : R) :
  fold_left (fun a kv => a + snd kv) s acc = acc + series_total s.
Proof.
  unfold series_total. revert acc.
  induction s as [|kv s IH]; intro acc; cbn [fold_left].
  - ring.
  - rewrite IH, (IH (0 + snd kv)). ring.
Qed.

Lemma series_total_cons {K : Type} (kv : K * R) (s : list (K * R)) :
  series_total (kv :: s) = snd kv + series_total s.
Proof.
  unfold series_total at 1. cbn [fold_left]. rewrite series_total_from. ring.
Qed.

Lemma amount_total_from (df : DataFrame) (acc : R) :
  fold_left (fun a row => a + amount row) df acc = acc + amount_total df.
Proof.
  unfold amount_total. revert acc.
  induction df as [|row df IH]; intro acc; cbn [fold_left].
  - ring.
  - rewrite IH, (IH (0 + amount row)). ring.
Qed.

Lemma amount_total_cons (row : Expense) (df : DataFrame) :
  amount_total (row :: df) = amount row + amount_total df.
Proof.
  unfold amount_total at 1. cbn [fold_left]. rewrite amount_total_from. ring.
Qed.

Lemma add_to_group_total {K : Type} (eqb ltb : K -> K -> bool) (k : K) (v : R)
  (groups : list (K * R)) :
  series_total (add_to_group eqb ltb k v groups) = series_total groups + v.
Proof.
  induction groups as [|[k' s] rest IH]; cbn [add_to_group].
  - rewrite series_total_cons. cbn. unfold series_total. cbn. ring.
  - destruct (eqb k k'); [|destruct (ltb k k')];
      rewrite !series_total_cons; cbn [snd]; try rewrite IH;
      try rewrite series_total_cons; cbn [snd]; ring.
Qed.

(** Grouping keeps the grand total. *)
Lemma groupby_total {K : Type} (eqb ltb : K -> K -> bool) (key : Expense -> K)
  (df : DataFrame) :
  series_total (groupby_sum eqb ltb key df) = amount_total df.
Proof.
  unfold groupby_sum.
  assert (G : forall groups,
    series_total
      (fold_left (fun g row => add_to_group eqb ltb (key row) (amount row) g)
         df groups)
    = series_total groups + amount_total df).
  { induction df as [|row df IH]; intro groups; cbn [fold_left].
    - unfold amount_total. cbn. ring.
    - rewrite IH, add_to_group_total, amount_total_cons. ring. }
  rewrite G. unfold series_total at 1. cbn. ring.
Qed.

(** The value a grouped series holds for a key (0 when absent). *)
Lemma add_to_group_value (m k : Z) (v : R) (groups : list (Z * R)) :
  series_total (filter (fun kv => (fst kv =? m)%Z)
                  (add_to_group Z.eqb Z.ltb k v groups))
  = series_total (filter (fun kv => (fst kv =? m)%Z) groups)
    + (if (k =? m)%Z then v else 0).
Proof.
  induction groups as [|[k' s] rest IH]; cbn [add_to_group].
  - cbn [filter fst]. destruct (k =? m)%Z.
    + rewrite series_total_cons. cbn. unfold series_total. cbn. ring.
    + ring.
  - destruct (Z.eqb_spec k k') as [E | N].
    + subst k'. cbn [filter fst]. destruct (k =? m)%Z.
      * rewrite !series_total_cons. cbn [snd]. ring.
      * ring.
    + destruct (Z.ltb k k').
      * cbn [filter fst]. destruct (k =? m)%Z; destruct (k' =? m)%Z;
          rewrite ?series_total_cons; cbn [snd]; ring.
      * cbn [filter fst]. destruct (k' =? m)%Z.
        -- rewrite !series_total_cons, IH. cbn [snd]. ring.
        -- exact IH.
Qed.

Lemma monthly_value (m : Z) (df : DataFrame) :
  series_total (filter (fun kv => (fst kv =? m)%Z) (monthly_totals df))
  = amount_total (filter (fun row => (month row =? m)%Z) df).
Proof.
  unfold monthly_totals, groupby_sum.
  assert (G : forall groups,
    series_total
      (filter (fun kv => (fst kv =? m)%Z)
         (fold_left (fun g row => add_to_group Z.eqb Z.ltb (month row) (amount row) g)
            df groups))
    = series_total (filter (fun kv => (fst kv =? m)%Z) groups)
      + amount_total (filter (fun row => (month row =? m)%Z) df)).
  { induction df as [|row df IH]; intro groups; cbn [fold_left filter].
    - unfold amount_total. cbn. ring.
    - rewrite IH, add_to_group_value.
      destruct (month row =? m)%Z.
      + rewrite amount_total_cons. ring.
      + ring. }
  rewrite G. cbn. unfold series_total. cbn. ring.
Qed.

Lemma sorted_value (groups : list (Z * R)) :
  StronglySorted Z.lt (keys groups) ->
  forall m total, In (m, total) groups ->
  series_total (filter (fun kv => (fst kv =? m)%Z) groups) = total.
Proof.
  induction groups as [|[k0 v0] rest IH]; intros H m total I; [destruct I|].
  cbn in H. inversion H as [|? ? Hs Hall]; subst.
  rewrite Forall_forall in Hall.
  cbn [filter fst]. destruct I as [E | I].
  - inversion E; subst. rewrite Z.eqb_refl, series_total_cons. cbn [snd].
    assert (N : filter (fun kv => (fst kv =? m)%Z) rest = []).
    { clear IH Hs H E.
      induction rest as [|[k v] rest IHr]; [reflexivity|].
      cbn [filter fst].
      assert (m < k)%Z by (apply Hall; left; reflexivity).
      destruct (Z.eqb_spec k m); [lia|].
      apply IHr. intros x Ix. apply Hall. right. exact Ix. }
    rewrite N. unfold series_total. cbn. ring.
  - assert (k0 < m)%Z by (apply Hall, (in_map fst _ _ I)).
    destruct (Z.eqb_spec k0 m); [lia|].
    apply IH; assumption.
Qed.

(** X23.  For every reported month, [total_expense] is the sum of the
    amounts of that month's rows, and the amounts of the category
    breakdown add up to it. *)
Theorem reported_breakdown_adds_up (df : DataFrame) (a : Anomaly) :
  In a (_rule_based_detection df) ->
  total_expense a
    = amount_total (filter (fun row => (month row =? anomaly_month a)%Z) df)
  /\ series_total (categories a) = total_expense a.
Proof.
  intro I. unfold _rule_based_detection in I.
  destruct (length (monthly_totals df) <? 3)%nat; [destruct I|].
  apply AnomalyFacts.scan_months_spec in I.
  destruct I as (m & total & Im & _ & Ea). subst a.
  cbn [total_expense anomaly_month categories].
  assert (T : total = amount_total (filter (fun row => (month row =? m)%Z) df)).
  { rewrite <- monthly_value.
    symmetry. apply sorted_value; [apply AnomalyFacts.monthly_totals_sorted | exact Im]. }
  split; [exact T|].
  rewrite groupby_total. symmetry. exact T.
Qed.

Lemma reported_breakdown_adds_up_witness :
  exists a, In a (_rule_based_detection spike_after_five)
            /\ series_total (categories a) = total_expense a.
Proof.
  destruct spike_after_five_flagged as (a & Ia & _).
  exists a. split; [exact Ia|].
  apply (reported_breakdown_adds_up spike_after_five a Ia).
Defined.

(** X24.  On data with fewer than five distinct months
    [detect_expense_anomalies] reports no anomaly, whatever the number
    of rows and whatever the autoencoder would do: below ten rows it
    uses the rule-based detector, and from ten rows on training returns
    early, leaving the detector untrained, so the rule-based detector
    runs again, under the method label "autoencoder". *)
Theorem few_months_no_anomaly (ModelAnomaly : Type)
  (fitted_threshold : DataFrame -> R)
  (model_anomalies : AnomalyDetection.Detector -> DataFrame -> list ModelAnomaly)
  (df : DataFrame) :
  (length (monthly_totals df) < 5)%nat ->
  let result :=
    AnomalyDetection.detect_expense_anomalies ModelAnomaly fitted_threshold
      model_anomalies df in
  AnomalyDetection.anomalies result = []
  /\ AnomalyDetection.total_anomalies result = 0%nat
  /\ AnomalyDetection.method result
       = (if (length df <? 10)%nat then "rule_based" else "autoencoder")%string
  /\ AnomalyDetection.reported_threshold result
       = (if (length df <? 10)%nat then None else Some (8 / 10)).
Proof.
  intros H. cbv zeta. unfold AnomalyDetection.detect_expense_anomalies.
  assert (E : _rule_based_detection df = [])
    by (apply short_history_never_flagged; lia).
  destruct (length df <? 10)%nat.
  - cbn. rewrite E. repeat split; reflexivity.
  - unfold AnomalyDetection.train, AnomalyDetection.feature_rows.
    apply Nat.ltb_lt in H. rewrite H.
    unfold AnomalyDetection.detect_anomalies. cbn. rewrite E.
    repeat split; reflexivity.
Qed.

Lemma few_months_no_anomaly_witness :
  AnomalyDetection.anomalies
    (AnomalyDetection.detect_expense_anomalies unit (fun _ => 0)
       (fun _ _ => [tt]) [mkExpense 1 "Travel" 90000; mkExpense 2 "Travel" 10])
  = [].
Proof.
  apply (few_months_no_anomaly unit (fun _ => 0) (fun _ _ => [tt])
           [mkExpense 1 "Travel" 90000; mkExpense 2 "Travel" 10]).
  cbn. lia.
Defined.

End AnomalyMore.

(** ** More on the EMI, the SIP value and the schedule *)

Lemma geom_sum_le (q : Q) (k : nat) :
  1 <= q -> geom_sum q k <= inject_Z (Z.of_nat k) * q ^ Z.of_nat k.
Proof.
  intro Hq. induction k as [|k IH].
  - discriminate.
  - rewrite geom_sum_succ, inject_nat_succ, Qpower_nat_succ.
    assert (P : 0 < q ^ Z.of_nat k) by (apply Qpower_0_lt; lra).
    assert (N : 0 <= inject_Z (Z.of_nat k)).
    { change 0 with (inject_Z 0). rewrite <- Zle_Qle. lia. }
    set (p := q ^ Z.of_nat k) in *. set (n := inject_Z (Z.of_nat k)) in *.
    set (g := geom_sum q k) in *.
    assert (A1 : 0 <= (q - 1) * p) by (apply Qmult_le_0_compat; lra).
    assert (M : 0 <= n * ((q - 1) * p)) by (apply Qmult_le_0_compat; assumption).
    lra.
Qed.

Lemma geom_sum_ge (q : Q) (k : nat) :
  1 <= q -> inject_Z (Z.of_nat k) <= geom_sum q k.
Proof.
  intro Hq. induction k as [|k IH].
  - discriminate.
  - rewrite geom_sum_succ, inject_nat_succ.
    pose proof (Qpower_1_le q (Z.of_nat k) Hq ltac:(lia)). lra.
Qed.

Lemma emi_formula_at_least_flat (P r : Q) (k : nat) :
  0 <= P -> 0 <= r -> (0 < k)%nat ->
  P / inject_Z (Z.of_nat k) <= emi_formula P r (Z.of_nat k).
Proof.
  intros HP Hr Hk.
  pose proof (emi_formula_repays P r k Hr Hk) as R. cbv zeta in R.
  assert (Hm : 0 <= r / 1200) by (apply Qle_shift_div_l; [reflexivity | lra]).
  set (q := 1 + r / 1200) in *.
  assert (Hq : 1 <= q) by (unfold q; lra).
  pose proof (geom_sum_le q k Hq) as GL.
  pose proof (geom_sum_ge q k Hq) as GG.
  assert (N : 1 <= inject_Z (Z.of_nat k)).
  { change 1 with (inject_Z 1). rewrite <- Zle_Qle. lia. }
  assert (Pw : 0 < q ^ Z.of_nat k) by (apply Qpower_0_lt; lra).
  set (n := inject_Z (Z.of_nat k)) in *. set (g := geom_sum q k) in *.
  set (p := q ^ Z.of_nat k) in *. set (e := emi_formula P r (Z.of_nat k)) in *.
  apply Qle_shift_div_r; [lra|].
  (* e * g == P * p and g <= n * p, hence P <= e * n *)
  assert (Gpos : 0 < g) by lra.
  assert (E0 : 0 <= e).
  { destruct (Qlt_le_dec e 0) as [Neg | Pos]; [|exact Pos].
    exfalso. assert (e * g < 0) by nra. nra. }
  assert (S1 : e * g <= e * (n * p)) by nra.
  assert (S2 : P * p <= (e * n) * p) by (rewrite <- R; lra).
  nra.
Qed.

(** X25.  For a principal [0 <= P <= 10^9], [0 < n <= 1200] months and
    a rate that is zero or between 1 and 100, the EMI is never below the
    EMI of the same loan at zero interest. *)
Theorem emi_at_least_zero_rate_emi (P r : Q) (n : Z) :
  0 <= P -> P <= 1000000000 -> (0 < n)%Z -> (n <= 1200)%Z -> ordinary_rate r ->
  exists E E0,
    FinancialCalculator.calculate_emi P r n = Ok E
    /\ FinancialCalculator.calculate_emi P 0 n = Ok E0
    /\ E0 <= E.
Proof.
  intros HP _ Hn _ Hr.
  assert (R0 : 0 <= r) by (destruct Hr as [E | [L _]]; lra).
  exists (round2 (emi_formula P r n)), (round2 (P / inject_Z n)).
  split; [apply calculate_emi_is_rounded_formula; assumption|].
  split; [apply calculate_emi_zero_rate; [reflexivity | exact Hn]|].
  apply round2_mono.
  assert (Hk : Z.of_nat (Z.to_nat n) = n) by lia.
  rewrite <- Hk. apply emi_formula_at_least_flat; [assumption | assumption | lia].
Qed.

Lemma emi_at_least_zero_rate_emi_witness :
  exists E E0,
    FinancialCalculator.calculate_emi 1200 12 12 = Ok E
    /\ FinancialCalculator.calculate_emi 1200 0 12 = Ok E0
    /\ E0 <= E.
Proof.
  apply (emi_at_least_zero_rate_emi 1200 12 12);
    [discriminate | discriminate | reflexivity | discriminate
    | right; split; discriminate].
Defined.

(** X26.  For a monthly amount [0 <= A <= 10^9], [0 < n <= 1200] months
    and a rate that is zero or between 1 and 100, the SIP's current
    value is never below the total invested. *)
Theorem sip_value_at_least_invested (A r : Q) (n : Z) :
  0 <= A -> A <= 1000000000 -> (0 < n)%Z -> (n <= 1200)%Z -> ordinary_rate r ->
  exists v,
    FinancialCalculator.calculate_sip_value A r n = Ok v
    /\ FinancialCalculator.total_invested v
         <= FinancialCalculator.current_value v.
Proof.
  intros HA _ Hn _ Hr0.
  assert (Hr : 0 <= r) by (destruct Hr0 as [E | [L _]]; lra).
  unfold FinancialCalculator.calculate_sip_value.
  change (r / (12 * 100)) with (r / 1200).
  destruct (Qgtb (r / 1200) 0) eqn:G.
  - apply Qgtb_true in G.
    rewrite py_pow_growth by lra. cbn [bind].
    rewrite py_div_nonzero by (apply Qnot_eq_sym, Qlt_not_eq, G).
    cbn [bind]. eexists. split; [reflexivity|].
    cbn [FinancialCalculator.total_invested FinancialCalculator.current_value].
    apply round2_mono.
    set (m := r / 1200) in *. set (q := 1 + m).
    assert (Hk : Z.of_nat (Z.to_nat n) = n) by lia.
    pose proof (geom_sum_closed q (Z.to_nat n)) as C. rewrite Hk in C.
    pose proof (geom_sum_ge q (Z.to_nat n) ltac:(unfold q; lra)) as GG.
    rewrite Hk in GG.
    assert (D : (q ^ n - 1) / m == geom_sum q (Z.to_nat n)).
    { rewrite <- C. unfold q. field. lra. }
    rewrite D.
    set (g := geom_sum q (Z.to_nat n)) in *.
    assert (N : 0 <= inject_Z n).
    { change 0 with (inject_Z 0). rewrite <- Zle_Qle. lia. }
    assert (Hq : 1 <= q) by (unfold q; lra).
    assert (S1 : 0 <= A * (g - inject_Z n)) by (apply Qmult_le_0_compat; lra).
    assert (Ag : 0 <= A * g) by (apply Qmult_le_0_compat; lra).
    assert (S2 : 0 <= A * g * (q - 1)) by (apply Qmult_le_0_compat; lra).
    lra.
  - cbn [bind]. eexists. split; [reflexivity|].
    cbn [FinancialCalculator.total_invested FinancialCalculator.current_value].
    apply Qle_refl.
Qed.

Lemma sip_value_at_least_invested_witness :
  exists v,
    FinancialCalculator.calculate_sip_value 5000 12 36 = Ok v
    /\ FinancialCalculator.total_invested v
         <= FinancialCalculator.current_value v.
Proof.
  apply (sip_value_at_least_invested 5000 12 36);
    [discriminate | discriminate | reflexivity | discriminate
    | right; split; discriminate].
Defined.

Lemma schedule_loop_rows (m E : Q) (k : nat) :
  forall (month : Z) (b : Q) (row : FinancialCalculator.ScheduleRow),
  In row (FinancialCalculator.schedule_loop m E k month b) ->
  0 <= FinancialCalculator.row_balance row
  /\ FinancialCalculator.row_emi row = E
  /\ (month <= FinancialCalculator.row_month row < month + Z.of_nat k)%Z.
Proof.
  induction k as [|k IH]; intros month b row I; [destruct I|].
  cbn [FinancialCalculator.schedule_loop] in I. destruct I as [E0 | I].
  - subst row. cbn. split; [|split; [reflexivity | lia]].
    apply round2_nonneg, Q.le_max_r.
  - destruct (IH _ _ _ I) as (B & Em & Mo).
    split; [exact B|]. split; [exact Em | lia].
Qed.

(** X27.  Every row of a loan schedule reports a balance that is not
    negative, the EMI it was given, and a month between 1 and the
    tenure; a tenure of zero or less gives no rows. *)
Theorem schedule_rows_are_well_formed (P r : Q) (n : Z) (E : Q) :
  (forall row,
     In row (FinancialCalculator.calculate_loan_schedule P r n E) ->
     0 <= FinancialCalculator.row_balance row
     /\ FinancialCalculator.row_emi row = E
     /\ (1 <= FinancialCalculator.row_month row <= n)%Z)
  /\ ((n <= 0)%Z -> FinancialCalculator.calculate_loan_schedule P r n E = []).
Proof.
  unfold FinancialCalculator.calculate_loan_schedule. split.
  - intros row I. destruct (schedule_loop_rows _ _ _ _ _ _ I) as (B & Em & Mo).
    split; [exact B|]. split; [exact Em | lia].
  - intro H. replace (Z.to_nat n) with 0%nat by lia. reflexivity.
Qed.

Lemma balance_after_never_grows (P r E : Q) (k : nat) :
  0 <= r -> P * (r / 1200) <= E ->
  let m := r / 1200 in
  balance_after m E (S k) P <= balance_after m E k P
  /\ balance_after m E k P <= P.
Proof.
  intros Hr HE m.
  assert (Hm : 0 <= m) by (apply Qle_shift_div_l; [reflexivity | lra]).
  fold m in HE.
  assert (B : forall j, balance_after m E j P <= P).
  { induction j as [|j IH]; [apply Qle_refl|].
    rewrite balance_after_next. unfold next_balance.
    set (b := balance_after m E j P) in *. nra. }
  split; [|apply B].
  rewrite balance_after_next. unfold next_balance.
  specialize (B k). set (b := balance_after m E k P) in *. nra.
Qed.

Lemma loan_schedule_row (P r : Q) (n : Z) (E : Q) (i : nat)
  (row : FinancialCalculator.ScheduleRow) :
  nth_error (FinancialCalculator.calculate_loan_schedule P r n E) i = Some row ->
  row = FinancialCalculator.mkRow (1 + Z.of_nat i) E
          (round2 (balance_after (r / 1200) E i P * (r / 1200)))
          (round2 (E - balance_after (r / 1200) E i P * (r / 1200)))
          (round2 (Qmax (balance_after (r / 1200) E (S i) P) 0)).
Proof.
  unfold FinancialCalculator.calculate_loan_schedule. cbv zeta.
  change (r / (12 * 100)) with (r / 1200).
  intro H.
  assert (Hi : (i < Z.to_nat n)%nat).
  { rewrite <- (schedule_loop_length (r / 1200) E (Z.to_nat n) 1%Z P).
    apply nth_error_Some. rewrite H. discriminate. }
  rewrite (schedule_loop_nth (r / 1200) E (Z.to_nat n) 1%Z P i Hi) in H.
  injection H as H. symmetry. exact H.
Qed.

(** X28.  In the schedule [calculate_loan_schedule] returns, when the
    rate is not negative and the EMI covers the first month's interest
    [P * r/1200], no row reports a balance above the principal (rounded,
    and taken as zero when negative), and from each row to the next
    neither the reported balance nor the reported interest grows. *)
Theorem schedule_balance_never_grows (P r : Q) (n : Z) (E : Q) :
  0 <= r -> P * (r / 1200) <= E ->
  let rows := FinancialCalculator.calculate_loan_schedule P r n E in
  (forall (i : nat) (row : FinancialCalculator.ScheduleRow),
     nth_error rows i = Some row ->
     FinancialCalculator.row_balance row <= round2 (Qmax P 0))
  /\ (forall (i : nat) (row next : FinancialCalculator.ScheduleRow),
        nth_error rows i = Some row ->
        nth_error rows (S i) = Some next ->
        FinancialCalculator.row_balance next
          <= FinancialCalculator.row_balance row
        /\ FinancialCalculator.row_interest next
             <= FinancialCalculator.row_interest row).
Proof.
  intros Hr HE rows.
  assert (Hm : 0 <= r / 1200) by (apply Qle_shift_div_l; [reflexivity | lra]).
  split.
  - intros i row H.
    rewrite (loan_schedule_row P r n E i row H).
    cbn [FinancialCalculator.row_balance].
    apply round2_mono, Q.max_le_compat_r.
    apply (balance_after_never_grows P r E (S i) Hr HE).
  - intros i row next H H'.
    rewrite (loan_schedule_row P r n E i row H).
    rewrite (loan_schedule_row P r n E (S i) next H').
    cbn [FinancialCalculator.row_balance FinancialCalculator.row_interest].
    destruct (balance_after_never_grows P r E i Hr HE) as [D1 _].
    destruct (balance_after_never_grows P r E (S i) Hr HE) as [D2 _].
    split.
    + apply round2_mono, Q.max_le_compat_r, D2.
    + apply round2_mono. cbv zeta in D1.
      set (a := balance_after (r / 1200) E (S i) P) in *.
      set (b := balance_after (r / 1200) E i P) in *.
      nra.
Qed.

Lemma schedule_balance_never_grows_witness :
  let rows :=
    FinancialCalculator.calculate_loan_schedule 1200 12 12 (10662 # 100) in
  (forall (i : nat) (row : FinancialCalculator.ScheduleRow),
     nth_error rows i = Some row ->
     FinancialCalculator.row_balance row <= round2 (Qmax 1200 0))
  /\ (forall (i : nat) (row next : FinancialCalculator.ScheduleRow),
        nth_error rows i = Some row ->
        nth_error rows (S i) = Some next ->
        FinancialCalculator.row_balance next
          <= FinancialCalculator.row_balance row
        /\ FinancialCalculator.row_interest next
             <= FinancialCalculator.row_interest row).
Proof.
  apply (schedule_balance_never_grows 1200 12 12 (10662 # 100)); discriminate.
Defined.

(** ** XIRR on cashflows of a single day *)

Section XirrSameDay.

Variable float_pow : Q -> Q -> PyResult Q.

Hypothesis float_pow_positive :
  forall b y, 0 < b -> exists v, float_pow b y = Ok v /\ 0 < v.

Lemma npv_sum_returns (rate : Q) (pairs : list (Q * Q)) :
  0 < 1 + rate ->
  forall acc, exists v,
    FinancialCalculator.sum_terms
      (FinancialCalculator.npv_term float_pow rate) pairs acc = Ok v.
Proof.
  intro Hb. induction pairs as [|[cf y] rest IH]; intro acc;
    cbn [FinancialCalculator.sum_terms].
  - exists acc. reflexivity.
  - unfold FinancialCalculator.npv_term at 1.
    destruct (float_pow_positive (1 + rate) y Hb) as (pw & Epw & Ppw).
    rewrite Epw. cbn [bind].
    rewrite py_div_nonzero by (apply Qnot_eq_sym, Qlt_not_eq, Ppw).
    cbn [bind]. apply IH.
Qed.

Lemma dnpv_sum_vanishes (rate : Q) (pairs : list (Q * Q)) :
  0 < 1 + rate ->
  (forall p, In p pairs -> snd p == 0) ->
  forall acc, exists v,
    FinancialCalculator.sum_terms
      (FinancialCalculator.dnpv_term float_pow rate) pairs acc = Ok v
    /\ v == acc.
Proof.
  intros Hb. induction pairs as [|[cf y] rest IH]; intros Hz acc;
    cbn [FinancialCalculator.sum_terms].
  - exists acc. split; reflexivity.
  - unfold FinancialCalculator.dnpv_term at 1.
    destruct (float_pow_positive (1 + rate) (y + 1) Hb) as (pw & Epw & Ppw).
    rewrite Epw. cbn [bind].
    rewrite py_div_nonzero by (apply Qnot_eq_sym, Qlt_not_eq, Ppw).
    cbn [bind].
    destruct (IH (fun p I => Hz p (or_intror I)) (acc + - cf * y / pw))
      as (v & Ev & Hv).
    exists v. split; [exact Ev|].
    rewrite Hv. assert (Y : y == 0) by (apply (Hz (cf, y)); left; reflexivity).
    rewrite Y. field. apply Qnot_eq_sym, Qlt_not_eq, Ppw.
Qed.

Lemma same_day_years (d : Z) (dates : list Z) :
  (forall x, In x dates -> x = d) ->
  forall (cashflows : list Q) (p : Q * Q),
  In p (combine cashflows
          (map (fun x => inject_Z (x - d) / (1461 # 4)) dates)) ->
  snd p == 0.
Proof.
  intros Hd cashflows [cf y] I. apply in_combine_r in I.
  apply in_map_iff in I. destruct I as (x & Ex & Ix).
  cbn [snd]. subst y. rewrite (Hd x Ix), Z.sub_diag. reflexivity.
Qed.

(** X29.  When every cashflow falls on the same day (a single cashflow
    included), XIRR returns 10.0, its initial guess, whatever the
    amounts: the derivative vanishes and the first Newton step is never
    taken.  The float power is assumed positive on a positive base. *)
Theorem xirr_same_day_is_initial_guess (cashflows : list Q) (dates : list Z)
  (d : Z) :
  length cashflows = length dates -> dates <> [] ->
  (forall x, In x dates -> x = d) ->
  FinancialCalculator.calculate_xirr float_pow cashflows dates
    = Ok (1000 # 100).
Proof.
  intros Hlen Hne Hd. unfold FinancialCalculator.calculate_xirr.
  apply Nat.eqb_eq in Hlen. rewrite Hlen. cbn [negb].
  destruct dates as [|d0 rest]; [exfalso; apply Hne; reflexivity|].
  cbn [FinancialCalculator.first_item bind].
  assert (E0 : d0 = d) by (apply Hd; left; reflexivity). subst d0.
  set (pairs := combine cashflows _).
  assert (Z0 : forall p, In p pairs -> snd p == 0).
  { intros p I. apply (same_day_years d (d :: rest) Hd cashflows p I). }
  assert (Hb : 0 < 1 + (1 # 10)) by reflexivity.
  change (FinancialCalculator.newton_loop float_pow pairs 100 (1 # 10))
    with (FinancialCalculator.newton_loop float_pow pairs (S 99) (1 # 10)).
  cbn [FinancialCalculator.newton_loop].
  destruct (npv_sum_returns (1 # 10) pairs Hb 0) as (npv & En).
  destruct (dnpv_sum_vanishes (1 # 10) pairs Hb Z0 0) as (dnpv & Ed & Hd0).
  rewrite En, Ed. cbn [bind].
  assert (B : Qltb (Qabs dnpv) (1 # 1000000) = true).
  { unfold Qltb. apply negb_true_iff, not_true_iff_false.
    rewrite Qle_bool_iff, Hd0. change (Qabs 0) with 0. lra. }
  rewrite B. reflexivity.
Qed.

End XirrSameDay.

Lemma whole_pow_positive (b y : Q) :
  0 < b -> exists v, whole_pow b y = Ok v /\ 0 < v.
Proof.
  intro Hb. exists (b ^ Qfloor y). split.
  - unfold whole_pow, py_pow.
    rewrite (Qeq_bool_false b 0); [reflexivity|].
    apply Qnot_eq_sym, Qlt_not_eq, Hb.
  - apply Qpower_0_lt, Hb.
Qed.

Lemma xirr_same_day_is_initial_guess_witness :
  FinancialCalculator.calculate_xirr whole_pow [-1000; 1500] [19000; 19000]%Z
    = Ok (1000 # 100).
Proof.
  apply (xirr_same_day_is_initial_guess whole_pow whole_pow_positive
           [-1000; 1500] [19000; 19000]%Z 19000%Z).
  - reflexivity.
  - discriminate.
  - intros x [E | [E | []]]; symmetry; exact E.
Defined.
